(** * Client-side resilience layer of the Car Auction Analyzer

    A shallow embedding of
    - [docs/sw.js]: the service worker's fetch listener (the cache strategy
      router) and its [sync] listener (the upload queue drain), and
    - [mobile/CarAuctionAnalyzer/src/config/api.ts]: the [ApiClient]
      response interceptor (the authenticated request pipeline),
    followed by the properties established about them. *)

From Stdlib Require Import String Ascii.
From stdpp Require Import gmap strings list.

Local Open Scope string_scope.
Local Open Scope list_scope.

(** ** String helpers standing for the JavaScript string methods used *)

Module Js.

(** [s.startsWith(p)] *)
Definition startsWith (s p : string) : bool := String.prefix p s.

(** [s.includes(sub)] *)
Fixpoint includes (s sub : string) : bool :=
  String.prefix sub s ||
  match s with
  | EmptyString => false
  | String _ s' => includes s' sub
  end.

(** [s.endsWith(suf)], used for the regular expressions anchored by [$] *)
Definition endsWith (s suf : string) : bool :=
  let n := String.length s in
  let k := String.length suf in
  (k <=? n)%nat && String.eqb (String.substring (n - k) k s) suf.

Definition lower_ascii (c : ascii) : ascii :=
  let n := nat_of_ascii c in
  if ((65 <=? n) && (n <=? 90))%nat then ascii_of_nat (n + 32) else c.

Fixpoint toLowerCase (s : string) : string :=
  match s with
  | EmptyString => EmptyString
  | String c s' => String (lower_ascii c) (toLowerCase s')
  end.

(** [Array.prototype.includes] on an array of strings *)
Definition arrayIncludes (l : list string) (x : string) : bool :=
  existsb (String.eqb x) l.

End Js.

(** ** docs/sw.js *)

Module ServiceWorker.

Definition CACHE_VERSION : string := "v1".
Definition STATIC_CACHE : string := "car-auction-static-" +:+ CACHE_VERSION.
Definition DYNAMIC_CACHE : string := "car-auction-dynamic-" +:+ CACHE_VERSION.
Definition IMAGE_CACHE : string := "car-auction-images-" +:+ CACHE_VERSION.
Definition API_CACHE : string := "car-auction-api-" +:+ CACHE_VERSION.

Definition STATIC_ASSETS : list string :=
  [ "/"; "/index.html"; "/manifest.json";
    "/icons/icon-72x72.png"; "/icons/icon-96x96.png";
    "/icons/icon-128x128.png"; "/icons/icon-144x144.png";
    "/icons/icon-152x152.png"; "/icons/icon-192x192.png";
    "/icons/icon-384x384.png"; "/icons/icon-512x512.png";
    "/icons/apple-icon-152.png"; "/icons/apple-icon-167.png";
    "/icons/apple-icon-180.png" ].

(** A request as the listener reads it: [request.method],
    [request.destination], and the parts of [new URL(request.url)].
    [request.url] is the serialisation [origin ++ pathname ++ search]. *)
Record Request := {
  method : string;
  origin : string;
  pathname : string;
  search : string;
  destination : string
}.

Definition url (r : Request) : string :=
  origin r +:+ pathname r +:+ search r.

Record Response := {
  status : nat;
  body : string
}.

(** [caches]: the named caches in creation order, each keyed by request URL
    (only GET requests reach the cache calls of the listener). *)
Definition CacheStorage : Type := list (string * gmap string Response).

(** [caches.match(request)]: the first cache, in creation order, that holds
    the key answers; [None] is JavaScript's [undefined]. *)
Fixpoint caches_match (cs : CacheStorage) (key : string) : option Response :=
  match cs with
  | [] => None
  | (_, c) :: rest =>
      match c !! key with
      | Some r => Some r
      | None => caches_match rest key
      end
  end.

(** [caches.open(name).then(cache => cache.put(request, response))]:
    [open] creates the cache when it does not exist yet. *)
Fixpoint caches_put (cs : CacheStorage) (name key : string) (r : Response)
  : CacheStorage :=
  match cs with
  | [] => [(name, {[ key := r ]})]
  | (n, c) :: rest =>
      if String.eqb n name then (n, <[ key := r ]> c) :: rest
      else (n, c) :: caches_put rest name key r
  end.

(** The entry of one named cache. *)
Fixpoint cache_entry (cs : CacheStorage) (name key : string) : option Response :=
  match cs with
  | [] => None
  | (n, c) :: rest =>
      if String.eqb n name then c !! key else cache_entry rest name key
  end.

(** What [fetch(request)] settles to. *)
Inductive NetResult :=
| NetResponse (r : Response)
| NetError (e : string).

(** Settlement of a promise of a response. *)
Inductive Settled :=
| Fulfilled (v : option Response)
| Rejected (e : string).

(** The promise handed to [event.respondWith]: either it settles with a
    value read from the cache alone, or it is (chained on) the promise of
    the network fetch. *)
Inductive Answer :=
| Immediate (r : Response)
| AfterNetwork (s : Settled).

Definition settle (a : Answer) : Settled :=
  match a with
  | Immediate r => Fulfilled (Some r)
  | AfterNetwork s => s
  end.

Inductive Effect :=
| CacheMatch (key : string)
| Fetch (r : Request)
| CachePut (name key : string) (r : Response)
| ConsoleLog (msg : string).

Record Handled := {
  answer : Answer;
  caches_after : CacheStorage;
  effects : list Effect
}.

Definition isImageRequest (request : Request) : bool :=
  String.eqb (destination request) "image" ||
  existsb (fun ext => Js.endsWith (Js.toLowerCase (url request)) ext)
          [".jpg"; ".jpeg"; ".png"; ".gif"; ".svg"; ".webp"].

Definition isApiRequest (request : Request) : bool :=
  Js.includes (url request) "/api/" ||
  Js.includes (url request) "/analyze" ||
  Js.includes (url request) "/vehicle".

(** The test and the [put] of the [.then(networkResponse => ...)]
    handlers: store a clone under [name] when the status is 200. The [put]
    is started and not waited for; the storage returned is the one in
    which it has landed. Strategies 1 and 3 take the clone at once (lines
    119 and 152), before the response is handed on. *)
Definition store_if_200 (cs : CacheStorage) (name : string) (request : Request)
    (networkResponse : Response) : CacheStorage * list Effect :=
  if (status networkResponse =? 200)%nat
  then (caches_put cs name (url request) networkResponse,
        [CachePut name (url request) networkResponse])
  else (cs, []).

(** Strategy 1: cache-first for static assets. The fetch has no [catch]. *)
Definition cache_first (cs : CacheStorage) (net : NetResult) (request : Request)
  : Handled :=
  match caches_match cs (url request) with
  | Some response =>
      {| answer := Immediate response; caches_after := cs;
         effects := [CacheMatch (url request)] |}
  | None =>
      match net with
      | NetResponse networkResponse =>
          let '(cs', puts) := store_if_200 cs STATIC_CACHE request networkResponse in
          {| answer := AfterNetwork (Fulfilled (Some networkResponse));
             caches_after := cs';
             effects := [CacheMatch (url request); Fetch request] ++ puts |}
      | NetError e =>
          {| answer := AfterNetwork (Rejected e); caches_after := cs;
             effects := [CacheMatch (url request); Fetch request] |}
      end
  end.

(** Strategies 2 and 4 share their shape and differ in the cache written
    and the message logged:
    [caches.match(request).then(response => { const fetchPromise = ...;
     return response || fetchPromise; })].
    Here the clone is taken later, inside the callback of [caches.open]
    (lines 136 and 172). When a cached response was the answer, the
    network response is still untouched then and the [put] lands. When no
    cache held the request, the network response itself went to
    [respondWith], which has taken its body by the time that callback
    runs: [clone()] throws there and nothing is stored. *)
Definition cached_or_fetch (name logmsg : string) (cs : CacheStorage)
    (net : NetResult) (request : Request) : Handled :=
  let response := caches_match cs (url request) in
  let '(fetched, cs', fx) :=
    match net with
    | NetResponse networkResponse =>
        match response with
        | Some _ =>
            let '(cs', puts) := store_if_200 cs name request networkResponse in
            (Fulfilled (Some networkResponse), cs', puts)
        | None => (Fulfilled (Some networkResponse), cs, [])
        end
    | NetError e => (Fulfilled None, cs, [ConsoleLog logmsg])
    end in
  {| answer := match response with
               | Some r => Immediate r
               | None => AfterNetwork fetched
               end;
     caches_after := cs';
     effects := [CacheMatch (url request); Fetch request] ++ fx |}.

Definition image_strategy := cached_or_fetch IMAGE_CACHE "[Service Worker] Image fetch failed:".
Definition stale_while_revalidate := cached_or_fetch DYNAMIC_CACHE "[Service Worker] Fetch failed:".

(** Strategy 3: network-first with cache fallback for API requests. *)
Definition network_first (cs : CacheStorage) (net : NetResult) (request : Request)
  : Handled :=
  match net with
  | NetResponse networkResponse =>
      let '(cs', puts) := store_if_200 cs API_CACHE request networkResponse in
      {| answer := AfterNetwork (Fulfilled (Some networkResponse));
         caches_after := cs';
         effects := [Fetch request] ++ puts |}
  | NetError e =>
      {| answer := AfterNetwork (Fulfilled (caches_match cs (url request)));
         caches_after := cs;
         effects := [Fetch request;
                     ConsoleLog "[Service Worker] API fetch failed, falling back to cache:";
                     CacheMatch (url request)] |}
  end.

(** The [fetch] event listener. [self_origin] is [self.location.origin];
    [net] is what the network would answer to [fetch(request)] should the
    listener call it. [None]: the listener returned without calling
    [event.respondWith]. *)
Definition fetch_listener (self_origin : string) (cs : CacheStorage)
    (net : NetResult) (request : Request) : option Handled :=
  if negb (String.eqb (method request) "GET")
     || negb (String.eqb (origin request) self_origin)
  then None
  else if Js.arrayIncludes STATIC_ASSETS (pathname request)
          || Js.startsWith (pathname request) "/icons/"
  then Some (cache_first cs net request)
  else if isImageRequest request
  then Some (image_strategy cs net request)
  else if isApiRequest request
  then Some (network_first cs net request)
  else Some (stale_while_revalidate cs net request).

(** Serving a sequence of requests for one key, each with its own network
    behaviour: the answers, the fetches issued, the final caches. *)
Fixpoint serve_all (self_origin : string) (cs : CacheStorage)
    (nets : list NetResult) (request : Request)
  : list (option Answer) * list Effect * CacheStorage :=
  match nets with
  | [] => ([], [], cs)
  | net :: rest =>
      match fetch_listener self_origin cs net request with
      | None =>
          let '(as_, fx, cs') := serve_all self_origin cs rest request in
          (None :: as_, fx, cs')
      | Some h =>
          let '(as_, fx, cs') :=
            serve_all self_origin (caches_after h) rest request in
          (Some (answer h) :: as_, effects h ++ fx, cs')
      end
  end.

(** A request the listener handles: a same-origin GET. *)
Definition handled (self_origin : string) (request : Request) : Prop :=
  method request = "GET" /\ origin request = self_origin.

(** The test of line 108. *)
Definition is_static (request : Request) : bool :=
  Js.arrayIncludes STATIC_ASSETS (pathname request)
  || Js.startsWith (pathname request) "/icons/".

(** No cache other than [name] holds [key]. *)
Definition only_in (cs : CacheStorage) (name key : string) : Prop :=
  Forall (fun nc => fst nc <> name -> snd nc !! key = None) cs.

Definition is_fetch (e : Effect) : bool :=
  match e with Fetch _ => true | _ => false end.

(** ** Sample data *)

Definition app_origin : string := "https://app.example".

Definition icon_request : Request :=
  {| method := "GET"; origin := app_origin;
     pathname := "/icons/icon-72x72.png"; search := ""; destination := "image" |}.


Definition page_request : Request :=
  {| method := "GET"; origin := app_origin;
     pathname := "/dashboard"; search := ""; destination := "document" |}.

Definition post_request : Request :=
  {| method := "POST"; origin := app_origin;
     pathname := "/api/analyze"; search := ""; destination := "" |}.

Definition ok_response (b : string) : Response := {| status := 200; body := b |}.

Definition precached : CacheStorage :=
  [(STATIC_CACHE, {[ url icon_request := ok_response "png" ]})].

Definition visited : CacheStorage :=
  [(STATIC_CACHE, ∅); (DYNAMIC_CACHE, {[ url page_request := ok_response "old" ]})].

(** ** The rest of the life cycle: install and activate *)

(** [response.ok] *)
Definition ok (r : Response) : bool :=
  (200 <=? status r)%nat && (status r <=? 299)%nat.

(** [caches.open(name)] alone: the cache is created, empty, when there is
    none of that name. *)
Fixpoint caches_open (cs : CacheStorage) (name : string) : CacheStorage :=
  match cs with
  | [] => [(name, ∅)]
  | (n, c) :: rest =>
      if String.eqb n name then (n, c) :: rest
      else (n, c) :: caches_open rest name
  end.

(** [cache.addAll(urls)] fetches every URL and stores the responses only
    when every fetch answered with an [ok] response; otherwise it rejects
    and stores nothing. [fetch_all] is its first half. *)
Fixpoint fetch_all (net : string -> NetResult) (urls : list string)
  : option (list (string * Response)) :=
  match urls with
  | [] => Some []
  | u :: rest =>
      match net u with
      | NetResponse r =>
          if ok r then
            match fetch_all net rest with
            | Some entries => Some ((u, r) :: entries)
            | None => None
            end
          else None
      | NetError _ => None
      end
  end.

Definition put_all (cs : CacheStorage) (name : string)
    (entries : list (string * Response)) : CacheStorage :=
  fold_left (fun cs' e => caches_put cs' name (fst e) (snd e)) entries cs.

(** The [install] listener (lines 36-52). The manifest paths are resolved
    against the origin of the worker. The result carries what the [catch]
    logged, if anything. *)
Definition install (self_origin : string) (cs : CacheStorage)
    (net : string -> NetResult) : CacheStorage * option string :=
  let cs1 := caches_open cs STATIC_CACHE in
  match fetch_all net (map (fun p => self_origin +:+ p) STATIC_ASSETS) with
  | Some entries => (put_all cs1 STATIC_CACHE entries, None)
  | None => (cs1, Some "[Service Worker] Precaching failed:")
  end.

(** The test of lines 66-71, negated: the cache name is one of the four of
    the current version. *)
Definition is_current (key : string) : bool :=
  String.eqb key STATIC_CACHE || String.eqb key DYNAMIC_CACHE
  || String.eqb key IMAGE_CACHE || String.eqb key API_CACHE.

(** The [activate] listener (lines 55-80): [caches.delete(key)] for every
    key that is not current. *)
Definition activate (cs : CacheStorage) : CacheStorage :=
  List.filter (fun nc => is_current (fst nc)) cs.

(** The cache a strategy of the fetch listener writes to. *)
Definition target_cache (request : Request) : string :=
  if is_static request then STATIC_CACHE
  else if isImageRequest request then IMAGE_CACHE
  else if isApiRequest request then API_CACHE
  else DYNAMIC_CACHE.

(** A request for a path of the site, as a page issues it. *)
Definition get (self_origin path dest : string) : Request :=
  {| method := "GET"; origin := self_origin; pathname := path;
     search := ""; destination := dest |}.

(** A network on which every request is answered 200. *)
Definition online (u : string) : NetResult := NetResponse (ok_response u).

(** The same network, on which the manifest alone cannot be reached. *)
Definition without_manifest (u : string) : NetResult :=
  if String.eqb u (app_origin +:+ "/manifest.json")
  then NetError "TypeError: Failed to fetch" else online u.



End ServiceWorker.

(** ** docs/sw.js, the [sync] listener *)

Module BackgroundSync.

(** A record of the [pending-uploads] object store: its key [id] and the
    other properties of the stored object. *)
Record Upload := {
  id : nat;
  fields : list (string * string)
}.

(** The object store, in key order. *)
Definition ObjectStore : Type := list Upload.

(** What a [fetch('/api/analyze', {method: 'POST', ...})] would settle to:
    a response with its [ok] flag, or a rejection. *)
Inductive FetchResult :=
| Responded (ok : bool)
| Failed (e : string).

(** What a run of the listener does to the outside: the lines it prints,
    the database it asks for, the uploads it posts (line 203) and the keys
    it deletes from the store (line 215). *)
Inductive Effect :=
| ConsoleLog (msg : string)
| OpenRequest (name : string) (version : nat)
| Post (u : Upload)
| Delete (key : nat).

Record SyncRun := {
  effects : list Effect;
  threw : option string;     (* the exception the listener ends with *)
  waited : bool;             (* [event.waitUntil] was called *)
  store_after : ObjectStore
}.

(** The [sync] listener (lines 188-227). For the tag [sync-photos] the
    argument of [event.waitUntil] is evaluated first:
    [self.indexedDB.open('car-auction-db', 1)] answers an
    [IDBOpenDBRequest], which reports through [onsuccess] and [onerror]
    and is no promise; nothing in sw.js wraps it. Reading [then] on it
    gives [undefined] and the call of line 195 throws a [TypeError], in
    the listener itself: [waitUntil] is not reached, the callbacks of
    lines 195-224 are never registered, and the [.catch] of line 222, a
    method of the promise that was to be, catches nothing. *)
Definition sync_listener (tag : string) (store : ObjectStore) : SyncRun :=
  let logged := ConsoleLog ("[Service Worker] Background Sync Event: " +:+ tag) in
  if String.eqb tag "sync-photos" then
    {| effects := [logged; OpenRequest "car-auction-db" 1];
       threw := Some "TypeError: self.indexedDB.open(...).then is not a function";
       waited := false;
       store_after := store |}
  else
    {| effects := [logged]; threw := None; waited := false;
       store_after := store |}.

(** The delivery attempts of a run. *)
Definition posts (run : SyncRun) : list Upload :=
  flat_map (fun e => match e with Post u => [u] | _ => [] end) (effects run).

(** The keys a run deletes. *)
Definition deleted (run : SyncRun) : list nat :=
  flat_map (fun e => match e with Delete k => [k] | _ => [] end) (effects run).

(** The draining policy in the words of the specification, for comparison:
    sequential, continue after a success, stop at the first failure.
    Returns the submissions for which a delivery attempt is made. *)
Fixpoint drain_as_specified (pending : list Upload)
    (net : Upload -> FetchResult) : list Upload :=
  match pending with
  | [] => []
  | upload :: rest =>
      match net upload with
      | Responded true => upload :: drain_as_specified rest net
      | _ => [upload]
      end
  end.

(** ** Sample data *)

Definition S1 : Upload := {| id := 1; fields := [("attempts", "0"); ("photo", "front.jpg")] |}.
Definition S2 : Upload := {| id := 2; fields := [("attempts", "0"); ("photo", "rear.jpg")] |}.

(** A server that accepts every upload. *)
Definition accepts_all (u : Upload) : FetchResult := Responded true.

End BackgroundSync.

(** ** mobile/CarAuctionAnalyzer/src/config/api.ts *)

Module ApiClient.

(** [TOKEN_STORAGE] *)
Definition ACCESS_TOKEN : string := "car_auction_access_token".
Definition REFRESH_TOKEN : string := "car_auction_refresh_token".
Definition USER_DATA : string := "car_auction_user_data".

(** The request configuration the interceptors read and write: the
    [_retry] mark (absent reads as false) and the headers, which the
    code tests for presence before writing [Authorization]. *)
Record RequestConfig := {
  url : string;
  _retry : bool;
  headers : option (gmap string string)
}.

(** [error.response]: its [status] and its [data]. [data] is [None] when
    the body is null or undefined; otherwise it carries the [message]
    property read from it, if there is one. *)
Record ErrorResponse := {
  status : nat;
  data : option (option string)
}.

(** [AxiosError]: [error.config] and the optional [error.response]. *)
Record AxiosError := {
  config : RequestConfig;
  response : option ErrorResponse
}.

(** What the interceptor throws: [new Error(msg)] or an [ApiError]
    object (its [status] and [message]). *)
Inductive Thrown :=
| JsError (msg : string)
| ApiErrorObj (st : nat) (msg : string).

(** JavaScript truthiness of a string-or-null. *)
Definition truthy (v : option string) : option string :=
  match v with
  | Some s => if String.eqb s "" then None else Some s
  | None => None
  end.

(** [if (cfg.headers) cfg.headers.Authorization = `Bearer ${token}`] *)
Definition authorize (token : string) (cfg : RequestConfig) : RequestConfig :=
  match headers cfg with
  | Some h =>
      {| url := url cfg; _retry := _retry cfg;
         headers := Some (<[ "Authorization" := "Bearer " +:+ token ]> h) |}
  | None => cfg
  end.

Definition mark_retry (cfg : RequestConfig) : RequestConfig :=
  {| url := url cfg; _retry := true; headers := headers cfg |}.

(** [AsyncStorage.multiRemove] of [clearAuthData] *)
Definition clearAuthData (st : gmap string string) : gmap string string :=
  delete USER_DATA (delete REFRESH_TOKEN (delete ACCESS_TOKEN st)).

(** [saveAuthData] *)
Definition saveAuthData (accessToken refreshToken userData : string)
    (st : gmap string string) : gmap string string :=
  <[ USER_DATA := userData ]>
    (<[ REFRESH_TOKEN := refreshToken ]> (<[ ACCESS_TOKEN := accessToken ]> st)).

(** The request interceptor (lines 131-147). *)
Definition request_interceptor (isConnected : bool) (st : gmap string string)
    (cfg : RequestConfig) : Thrown + RequestConfig :=
  if negb isConnected then inl (JsError "No internet connection")
  else match truthy (st !! ACCESS_TOKEN) with
       | Some token => inr (authorize token cfg)
       | None => inr cfg
       end.

(** Where an invocation of the response interceptor's error handler that
    took the refresh branch is suspended: the [await] it is waiting on. *)
Inductive Phase :=
| AwaitRefreshToken                       (* line 174, [getItem] *)
| AwaitClearNoToken                       (* line 177, [clearAuthData] *)
| AwaitRefreshPost                        (* line 181, [axios.post] *)
| AwaitSetAccess (access refresh : string)  (* line 189, [setItem] *)
| AwaitSetRefresh (access refresh : string) (* line 190, [setItem] *)
| AwaitClearFinal                         (* line 208, [clearAuthData] *)
| Done.

Record Task := {
  originalRequest : RequestConfig;
  phase : Phase
}.

(** The [ApiClient] instance with its surroundings: the two private
    fields, [AsyncStorage], the suspended handler invocations, and what
    has been observed so far: the refresh tokens posted to
    [/auth/refresh], the configurations handed to [this.instance(...)]
    for a retry, and the errors thrown to callers. A waiter is the closure
    pushed at line 160; it is represented by the [originalRequest] it
    captured, and its promise stays pending until the closure is called. *)
Record Client := {
  isRefreshing : bool;
  refreshSubscribers : list RequestConfig;
  storage : gmap string string;
  tasks : list Task;
  posted : list string;
  resent : list RequestConfig;
  thrown : list (RequestConfig * Thrown)
}.

Definition initial (st : gmap string string) : Client :=
  {| isRefreshing := false; refreshSubscribers := []; storage := st;
     tasks := []; posted := []; resent := []; thrown := [] |}.

Inductive Event :=
| ResponseError (e : AxiosError)   (* the error handler is entered *)
| StorageDone (t : nat)            (* the AsyncStorage call task [t] awaits completes *)
| RefreshReply (t : nat) (r : option (string * string)).
                                   (* the refresh POST of task [t] settles *)

Definition set_task (c : Client) (t : nat) (k : Task) : Client :=
  {| isRefreshing := isRefreshing c; refreshSubscribers := refreshSubscribers c;
     storage := storage c; tasks := <[ t := k ]> (tasks c);
     posted := posted c; resent := resent c; thrown := thrown c |}.

Definition throw (c : Client) (cfg : RequestConfig) (x : Thrown) : Client :=
  {| isRefreshing := isRefreshing c; refreshSubscribers := refreshSubscribers c;
     storage := storage c; tasks := tasks c;
     posted := posted c; resent := resent c;
     thrown := thrown c ++ [(cfg, x)] |}.

(** Lines 153-170 and 213-230: the synchronous start of the handler. *)
Definition on_error (c : Client) (error : AxiosError) : Client :=
  let originalRequest := config error in
  if match response error with
     | Some r => (status r =? 401)%nat
     | None => false
     end && negb (_retry originalRequest)
  then
    if isRefreshing c
    then (* line 160: register a waiter, return its pending promise *)
      {| isRefreshing := isRefreshing c;
         refreshSubscribers := refreshSubscribers c ++ [originalRequest];
         storage := storage c; tasks := tasks c;
         posted := posted c; resent := resent c; thrown := thrown c |}
    else (* lines 169-174 *)
      {| isRefreshing := true;
         refreshSubscribers := refreshSubscribers c;
         storage := storage c;
         tasks := tasks c ++ [{| originalRequest := mark_retry originalRequest;
                                 phase := AwaitRefreshToken |}];
         posted := posted c; resent := resent c; thrown := thrown c |}
  else
    match response error with
    | None =>
        throw c originalRequest
              (JsError "Network error. Please check your connection.")
    | Some r =>
        match data r with
        | None =>
            (* line 220 reads [message] of null: a [TypeError] *)
            throw c originalRequest
                  (JsError "TypeError: cannot read property 'message' of null")
        | Some message =>
            throw c originalRequest
                  (ApiErrorObj (status r)
                     (default "An unexpected error occurred" (truthy message)))
        end
    end.

(** The [catch (refreshError)] block up to its [await] (lines 206-208). *)
Definition enter_catch (c : Client) (t : nat) (k : Task) : Client :=
  {| isRefreshing := false; refreshSubscribers := [];
     storage := storage c;
     tasks := <[ t := {| originalRequest := originalRequest k;
                         phase := AwaitClearFinal |} ]> (tasks c);
     posted := posted c; resent := resent c; thrown := thrown c |}.

(** The continuation of task [t] after the AsyncStorage call it awaits. *)
Definition on_storage (c : Client) (t : nat) : Client :=
  match tasks c !! t with
  | None => c
  | Some k =>
      match phase k with
      | AwaitRefreshToken =>
          match truthy (storage c !! REFRESH_TOKEN) with
          | None =>
              set_task c t {| originalRequest := originalRequest k;
                              phase := AwaitClearNoToken |}
          | Some refreshToken =>
              {| isRefreshing := isRefreshing c;
                 refreshSubscribers := refreshSubscribers c;
                 storage := storage c;
                 tasks := <[ t := {| originalRequest := originalRequest k;
                                     phase := AwaitRefreshPost |} ]> (tasks c);
                 posted := posted c ++ [refreshToken];
                 resent := resent c; thrown := thrown c |}
          end
      | AwaitClearNoToken =>
          (* line 178 throws into the catch block *)
          enter_catch
            {| isRefreshing := isRefreshing c;
               refreshSubscribers := refreshSubscribers c;
               storage := clearAuthData (storage c); tasks := tasks c;
               posted := posted c; resent := resent c; thrown := thrown c |}
            t k
      | AwaitSetAccess access refresh =>
          {| isRefreshing := isRefreshing c;
             refreshSubscribers := refreshSubscribers c;
             storage := <[ ACCESS_TOKEN := access ]> (storage c);
             tasks := <[ t := {| originalRequest := originalRequest k;
                                 phase := AwaitSetRefresh access refresh |} ]>
                        (tasks c);
             posted := posted c; resent := resent c; thrown := thrown c |}
      | AwaitSetRefresh access refresh =>
          (* lines 193-203 *)
          let original' := authorize access (originalRequest k) in
          {| isRefreshing := false;
             refreshSubscribers := [];
             storage := <[ REFRESH_TOKEN := refresh ]> (storage c);
             tasks := <[ t := {| originalRequest := original';
                                 phase := Done |} ]> (tasks c);
             posted := posted c;
             resent := resent c
                       ++ map (authorize access) (refreshSubscribers c)
                       ++ [original'];
             thrown := thrown c |}
      | AwaitClearFinal =>
          {| isRefreshing := isRefreshing c;
             refreshSubscribers := refreshSubscribers c;
             storage := clearAuthData (storage c);
             tasks := <[ t := {| originalRequest := originalRequest k;
                                 phase := Done |} ]> (tasks c);
             posted := posted c; resent := resent c;
             thrown := thrown c ++ [(originalRequest k,
                                     JsError "Authentication required")] |}
      | AwaitRefreshPost | Done => c
      end
  end.

(** The continuation of task [t] after its refresh POST settles:
    [Some (access_token, refresh_token)] from [response.data], or [None]
    when [axios.post] rejects. *)
Definition on_refresh (c : Client) (t : nat) (r : option (string * string))
  : Client :=
  match tasks c !! t with
  | None => c
  | Some k =>
      match phase k with
      | AwaitRefreshPost =>
          match r with
          | Some (access, refresh) =>
              set_task c t {| originalRequest := originalRequest k;
                              phase := AwaitSetAccess access refresh |}
          | None => enter_catch c t k
          end
      | _ => c
      end
  end.

Definition step (c : Client) (ev : Event) : Client :=
  match ev with
  | ResponseError e => on_error c e
  | StorageDone t => on_storage c t
  | RefreshReply t r => on_refresh c t r
  end.

Definition run (c : Client) (evs : list Event) : Client :=
  fold_left step evs c.

(** A first 401: a 401 response to a request not marked [_retry]. *)
Definition first401 (e : AxiosError) : Prop :=
  (exists r, response e = Some r /\ status r = 401) /\ _retry (config e) = false.

(** The 401 response to a request. *)
Definition unauthorized (cfg : RequestConfig) : AxiosError :=
  {| config := cfg;
     response := Some {| status := 401;
                         data := Some (Some "Unauthorized") |} |}.


(** One expiry event, as a schedule: the 401 of [r] enters the handler
    while no refresh is running; the 401s of [ws1] .. [ws4] enter it at any
    of the points where the refreshing invocation [t] is suspended; the
    refresh POST answers with a new pair of tokens. [refresh_in_flight]
    stops before the last continuation of [t] runs. *)
Definition refresh_in_flight (t : nat) (r : AxiosError)
    (ws1 ws2 ws3 ws4 : list AxiosError) (access refresh : string)
  : list Event :=
  [ResponseError r] ++ map ResponseError ws1
  ++ [StorageDone t] ++ map ResponseError ws2
  ++ [RefreshReply t (Some (access, refresh))] ++ map ResponseError ws3
  ++ [StorageDone t] ++ map ResponseError ws4.

Definition refresh_round (t : nat) (r : AxiosError)
    (ws1 ws2 ws3 ws4 : list AxiosError) (access refresh : string)
  : list Event :=
  refresh_in_flight t r ws1 ws2 ws3 ws4 access refresh ++ [StorageDone t].

(** The schedule of a 401 met with no refresh token in storage: [getItem],
    the [clearAuthData] of line 177, the one of line 208; other 401s may
    enter while the flag is still set. *)
Definition no_token_round (t : nat) (r : AxiosError)
    (ws1 ws2 : list AxiosError) : list Event :=
  [ResponseError r] ++ map ResponseError ws1
  ++ [StorageDone t] ++ map ResponseError ws2
  ++ [StorageDone t; StorageDone t].

(** The event does not bring in a request for URL [u]. *)
Definition quiet_about (u : string) (ev : Event) : Prop :=
  match ev with
  | ResponseError e => url (config e) <> u
  | _ => True
  end.

(** Nothing the client holds refers to a request for URL [u]: it is no
    waiter and no suspended invocation works for it. *)
Definition forgotten (u : string) (c : Client) : Prop :=
  Forall (fun cfg => url cfg <> u) (refreshSubscribers c) /\
  Forall (fun k => url (originalRequest k) <> u) (tasks c).

(** No request for URL [u] has been resumed: none was sent again and none
    was failed. *)
Definition unresumed (u : string) (c : Client) : Prop :=
  Forall (fun cfg => url cfg <> u) (resent c) /\
  Forall (fun x => url (fst x) <> u) (thrown c).

(** ** Sample data *)

Definition json_headers : gmap string string :=
  {[ "Content-Type" := "application/json" ]}.

Definition reqA : RequestConfig :=
  {| url := "/vehicles"; _retry := false; headers := Some json_headers |}.

Definition reqB : RequestConfig :=
  {| url := "/users/me"; _retry := false; headers := Some json_headers |}.

Definition session : gmap string string :=
  saveAuthData "access-1" "refresh-1" "{}" ∅.

(** ** The rest of the client *)

(** The test of line 156. *)
Definition takes_refresh_branch (error : AxiosError) : bool :=
  match response error with
  | Some r => (status r =? 401)%nat
  | None => false
  end && negb (_retry (config error)).

(** The phases inside the [try] block, where [isRefreshing] is set. *)
Definition in_refresh (p : Phase) : bool :=
  match p with
  | AwaitRefreshToken | AwaitClearNoToken | AwaitRefreshPost
  | AwaitSetAccess _ _ | AwaitSetRefresh _ _ => true
  | AwaitClearFinal | Done => false
  end.

Definition awaits_post (p : Phase) : bool :=
  match p with AwaitRefreshPost => true | _ => false end.

(** The invocations currently between lines 170 and 200/207. *)
Definition refreshing (c : Client) : list Task :=
  List.filter (fun k => in_refresh (phase k)) (tasks c).

(** The refresh POSTs not answered yet. *)
Definition awaiting_post (c : Client) : list Task :=
  List.filter (fun k => awaits_post (phase k)) (tasks c).

Definition single_flight (c : Client) : Prop :=
  length (refreshing c) = (if isRefreshing c then 1 else 0) /\
  (isRefreshing c = false -> refreshSubscribers c = []).

(** The schedule of an expiry whose refresh POST is rejected. *)
Definition failed_round (t : nat) (r : AxiosError)
    (ws1 ws2 : list AxiosError) : list Event :=
  [ResponseError r] ++ map ResponseError ws1
  ++ [StorageDone t] ++ map ResponseError ws2
  ++ [RefreshReply t None; StorageDone t].

(** What a caller of [request] catches (lines 274-283): the [ApiError]
    itself when its status is truthy, otherwise an object with status 500,
    the message of the error and [success: false]. *)
Record Failure := {
  f_status : nat;
  f_message : string;
  f_success : option bool
}.

Definition wrap_500 (msg : string) : Failure :=
  {| f_status := 500;
     f_message := default "Unknown error occurred" (truthy (Some msg));
     f_success := Some false |}.

Definition request_catch (x : Thrown) : Failure :=
  match x with
  | ApiErrorObj st msg =>
      if (st =? 0)%nat then wrap_500 msg
      else {| f_status := st; f_message := msg; f_success := None |}
  | JsError msg => wrap_500 msg
  end.

Definition well_formed (f : Failure) : Prop :=
  f_status f <> 0 /\ f_message f <> "".

(** [isAuthenticated] *)
Definition isAuthenticated (st : gmap string string) : bool :=
  match truthy (st !! ACCESS_TOKEN) with
  | Some _ => true
  | None => false
  end.

End ApiClient.

(** ** docs/sw.js, the [push] and [notificationclick] listeners *)

Module Notifications.

(** The value [event.data.json()] gave, by the properties the listener
    reads; [None] stands for a property that is absent. *)
Record Payload := {
  title : option string;
  body : option string;
  icon : option string;
  url : option string
}.

Inductive PushData :=
| NoData                     (* [event.data] is null *)
| JsonObject (p : Payload)   (* [json()] gave an object *)
| JsonNull                   (* [json()] gave [null] *)
| NotJson (text : string).   (* [json()] threw; [event.data.text()] *)

Record Action := {
  action : string;
  action_title : string;
  action_icon : string
}.

(** The arguments of [showNotification]. *)
Record Notification := {
  n_title : option string;
  n_body : string;
  n_icon : string;
  n_badge : string;
  n_vibrate : list nat;
  n_url : string;
  n_actions : list Action
}.

(** [v || d] on strings. *)
Definition or_else (v : option string) (d : string) : string :=
  default d (ApiClient.truthy v).

Definition fallback (text : string) : Payload :=
  {| title := Some "Car Auction Analyzer"; body := Some text;
     icon := Some "/icons/icon-192x192.png"; url := None |}.

(** Lines 233-251. [None]: there is no object to read properties from. *)
Definition notificationData (d : PushData) : option Payload :=
  match d with
  | NoData => Some (fallback "New update available")
  | JsonObject p => Some p
  | JsonNull => None
  | NotJson text => Some (fallback text)
  end.

(** The [push] listener. [None]: reading [notificationData.body] threw
    and no notification is shown. *)
Definition push (d : PushData) : option Notification :=
  match notificationData d with
  | None => None
  | Some p =>
      Some {| n_title := title p;
              n_body := or_else (body p) "Analysis complete!";
              n_icon := or_else (icon p) "/icons/icon-192x192.png";
              n_badge := "/icons/badge-72x72.png";
              n_vibrate := [100; 50; 100]%nat;
              n_url := or_else (url p) "/";
              n_actions :=
                [ {| action := "view"; action_title := "View Results";
                     action_icon := "/icons/view-icon.png" |};
                  {| action := "close"; action_title := "Close";
                     action_icon := "/icons/close-icon.png" |} ] |}
  end.

(** A window client: its URL and whether it has a [focus] method. *)
Record WindowClient := {
  client_url : string;
  can_focus : bool
}.

Inductive Opening :=
| Focus (c : WindowClient)
| OpenWindow (u : string)
| Nothing.

(** The [for] loop of lines 294-298. *)
Fixpoint first_showing (urlToOpen : string) (windowClients : list WindowClient)
  : option WindowClient :=
  match windowClients with
  | [] => None
  | client :: rest =>
      if String.eqb (client_url client) urlToOpen && can_focus client
      then Some client
      else first_showing urlToOpen rest
  end.

(** [event.notification.data && event.notification.data.url
     ? event.notification.data.url : '/'] *)
Definition urlToOpen (data : option (option string)) : string :=
  match data with
  | Some u => or_else u "/"
  | None => "/"
  end.

(** The [notificationclick] listener, after [event.notification.close()].
    [has_openWindow] is the test [clients.openWindow]. *)
Definition notificationclick (act : string) (data : option (option string))
    (windowClients : list WindowClient) (has_openWindow : bool) : Opening :=
  if String.eqb act "view" then
    match first_showing (urlToOpen data) windowClients with
    | Some client => Focus client
    | None => if has_openWindow then OpenWindow (urlToOpen data) else Nothing
    end
  else Nothing.

End Notifications.

(** ** mobile/CarAuctionAnalyzer/src/screens/CameraScreen.tsx *)

Module CameraScreen.

Inductive PhotoCategory :=
| EXTERIOR_FRONT | EXTERIOR_REAR | EXTERIOR_DRIVER | EXTERIOR_PASSENGER
| INTERIOR_DASHBOARD | INTERIOR_SEATS | DAMAGE_AREA | OTHER.

Record Photo := {
  id : string;
  uri : string;
  category : PhotoCategory;
  timestamp : nat
}.

(** The state update of [removePhoto], once the user confirms. *)
Definition removePhoto (photoId : string) (prevPhotos : list Photo)
  : list Photo :=
  List.filter (fun photo => negb (String.eqb (id photo) photoId)) prevPhotos.

(** The state update of [changePhotoCategory]. *)
Definition changePhotoCategory (photoId : string) (newCategory : PhotoCategory)
    (prevPhotos : list Photo) : list Photo :=
  map (fun photo =>
         if String.eqb (id photo) photoId
         then {| id := id photo; uri := uri photo;
                 category := newCategory; timestamp := timestamp photo |}
         else photo)
      prevPhotos.

End CameraScreen.

(** * Properties *)

(** ** The cache strategy router *)

Module ServiceWorkerFacts.
Import ServiceWorker.

Section Router.

Variable self_origin : string.

Lemma handled_guard request :
  handled self_origin request ->
  negb (String.eqb (method request) "GET")
  || negb (String.eqb (origin request) self_origin) = false.
Proof.
  intros [Hm Ho]. rewrite Hm, Ho, !String.eqb_refl. reflexivity.
Qed.

Lemma cache_entry_match cs name key r :
  cache_entry cs name key = Some r ->
  exists r', caches_match cs key = Some r'.
Proof.
  induction cs as [|[n c] rest IH]; simpl; [discriminate|].
  intros H. destruct (c !! key) as [r'|] eqn:Hc; [eauto|].
  destruct (String.eqb n name); [congruence|]. auto.
Qed.

Lemma cache_entry_put cs name key r :
  cache_entry (caches_put cs name key r) name key = Some r.
Proof.
  induction cs as [|[n c] rest IH]; simpl.
  - rewrite String.eqb_refl. apply lookup_singleton_eq.
  - destruct (String.eqb n name) eqn:E; simpl; rewrite E; [|exact IH].
    apply lookup_insert_eq.
Qed.

Lemma caches_match_put cs name key r :
  only_in cs name key ->
  caches_match (caches_put cs name key r) key = Some r.
Proof.
  induction 1 as [|[n c] rest Hc _ IH]; simpl in *.
  - by rewrite lookup_singleton_eq.
  - destruct (String.eqb_spec n name) as [->|Hne]; simpl.
    + by rewrite lookup_insert_eq.
    + rewrite (Hc Hne). exact IH.
Qed.

Lemma unmatched_only_in cs name key :
  caches_match cs key = None -> only_in cs name key.
Proof.
  induction cs as [|[n c] rest IH]; simpl; intros H; constructor.
  - intros _. simpl. by destruct (c !! key).
  - apply IH. by destruct (c !! key).
Qed.

Lemma no_fetch_in_lookups key n :
  List.filter is_fetch (repeat (CacheMatch key) n) = [].
Proof. induction n as [|n IH]; [reflexivity|exact IH]. Qed.


Lemma listener_static cs net request :
  handled self_origin request -> is_static request = true ->
  fetch_listener self_origin cs net request = Some (cache_first cs net request).
Proof.
  intros Hh Hs. unfold fetch_listener. rewrite (handled_guard _ Hh).
  unfold is_static in Hs. rewrite Hs. reflexivity.
Qed.

Lemma listener_api cs net request :
  handled self_origin request -> is_static request = false ->
  isImageRequest request = false -> isApiRequest request = true ->
  fetch_listener self_origin cs net request = Some (network_first cs net request).
Proof.
  intros Hh Hs Hi Ha. unfold fetch_listener. rewrite (handled_guard _ Hh).
  unfold is_static in Hs. rewrite Hs, Hi, Ha. reflexivity.
Qed.


Lemma cache_first_hit cs net request r :
  caches_match cs (url request) = Some r ->
  cache_first cs net request
  = {| answer := Immediate r; caches_after := cs;
       effects := [CacheMatch (url request)] |}.
Proof. intros H. unfold cache_first. rewrite H. reflexivity. Qed.

(** While the key is in some cache, every request of a sequence is
    answered from the cache, whatever the network would do. *)
Lemma serve_all_cached cs request r nets :
  handled self_origin request -> is_static request = true ->
  caches_match cs (url request) = Some r ->
  serve_all self_origin cs nets request
  = (repeat (Some (Immediate r)) (length nets),
     repeat (CacheMatch (url request)) (length nets), cs).
Proof.
  intros Hh Hs Hm. induction nets as [|net rest IH]; simpl; [reflexivity|].
  rewrite (listener_static _ _ _ Hh Hs), (cache_first_hit _ _ _ _ Hm).
  simpl. rewrite IH. reflexivity.
Qed.

(** C9. A request whose method is not GET is left alone by the fetch
    listener: it returns before [event.respondWith], so there is no
    answer of the router, no cache is read or written, and the request
    goes to the network as the page issued it. *)
Theorem non_get_bypasses_router cs net request :
  method request <> "GET" ->
  fetch_listener self_origin cs net request = None.
Proof.
  intros Hm. unfold fetch_listener.
  destruct (String.eqb_spec (method request) "GET") as [E|_]; [contradiction|].
  reflexivity.
Qed.

(** C7. Cache-first (a same-origin GET whose path is in the precache
    manifest or under /icons/): when a cache holds the request, that entry
    is the answer, the only effect is the cache lookup (no fetch), and the
    caches are unchanged; once the current static namespace holds an entry
    for the key, every request of any later sequence for that key is
    answered from the cache with no fetch at all, whatever the network
    would have answered; and when no cache holds the request, one fetch
    answered with status 200 stores the entry, after which the same
    holds. *)
Theorem cache_first_serves_from_cache cs request :
  handled self_origin request -> is_static request = true ->
  (forall r net, caches_match cs (url request) = Some r ->
     fetch_listener self_origin cs net request
     = Some {| answer := Immediate r; caches_after := cs;
               effects := [CacheMatch (url request)] |}) /\
  (forall r0 nets, cache_entry cs STATIC_CACHE (url request) = Some r0 ->
     exists r answers fx,
       serve_all self_origin cs nets request = (answers, fx, cs) /\
       answers = repeat (Some (Immediate r)) (length nets) /\
       List.filter is_fetch fx = []) /\
  (forall nr nets, caches_match cs (url request) = None -> status nr = 200 ->
     exists fx cs',
       serve_all self_origin cs (NetResponse nr :: nets) request
       = (Some (AfterNetwork (Fulfilled (Some nr)))
            :: repeat (Some (Immediate nr)) (length nets), fx, cs') /\
       cache_entry cs' STATIC_CACHE (url request) = Some nr /\
       List.filter is_fetch fx = [Fetch request]).
Proof.
  intros Hh Hs. split; [|split].
  - intros r net Hm. rewrite (listener_static _ _ _ Hh Hs).
    f_equal. by apply cache_first_hit.
  - intros r0 nets He.
    destruct (cache_entry_match _ _ _ _ He) as [r Hm].
    exists r, (repeat (Some (Immediate r)) (length nets)),
      (repeat (CacheMatch (url request)) (length nets)).
    split; [by apply serve_all_cached|]. split; [reflexivity|].
    apply no_fetch_in_lookups.
  - intros nr nets Hm H200. cbn [serve_all].
    rewrite (listener_static _ _ _ Hh Hs).
    unfold cache_first, store_if_200. rewrite Hm, H200. cbn.
    rewrite (serve_all_cached _ request nr nets Hh Hs)
      by (apply caches_match_put; by apply unmatched_only_in).
    eexists _, _. split; [reflexivity|]. split; [apply cache_entry_put|].
    cbn. f_equal. apply no_fetch_in_lookups.
Qed.



End Router.

Lemma non_get_bypasses_router_witness :
  fetch_listener app_origin precached (NetError "offline") post_request = None.
Proof. apply non_get_bypasses_router. discriminate. Defined.

Lemma cache_first_serves_from_cache_witness :
  fetch_listener app_origin precached (NetError "offline") icon_request
  = Some {| answer := Immediate (ok_response "png"); caches_after := precached;
            effects := [CacheMatch (url icon_request)] |}.
Proof.
  apply (proj1 (cache_first_serves_from_cache app_origin precached icon_request
                  (conj eq_refl eq_refl) eq_refl)).
  reflexivity.
Defined.




End ServiceWorkerFacts.

(** ** The upload queue drain *)

Module BackgroundSyncFacts.
Import BackgroundSync.

(** Whatever the tag and the store, a run posts nothing, deletes nothing,
    leaves the store as it is and does not reach [waitUntil]. *)
Lemma sync_does_nothing tag store :
  posts (sync_listener tag store) = [] /\
  deleted (sync_listener tag store) = [] /\
  store_after (sync_listener tag store) = store /\
  waited (sync_listener tag store) = false.
Proof.
  unfold sync_listener. by destruct (String.eqb tag "sync-photos").
Qed.

(** C3, the listener at a queue of two. With [S1] enqueued before [S2] and
    a server that would accept both, the drain of the specification
    attempts [S1], then [S2]. The listener throws at line 194 before it
    reaches [waitUntil]: it reads no pending submission and makes no
    delivery attempt, for [S1] or for [S2], and both stay in the store as
    they were. *)
Theorem drain_makes_no_delivery_attempt :
  drain_as_specified [S1; S2] accepts_all = [S1; S2] /\
  let run := sync_listener "sync-photos" [S1; S2] in
  threw run = Some "TypeError: self.indexedDB.open(...).then is not a function" /\
  waited run = false /\
  posts run = [] /\
  store_after run = [S1; S2].
Proof.
  split; [reflexivity|]. cbv zeta.
  split; [reflexivity|]. split; [reflexivity|]. split; reflexivity.
Qed.


End BackgroundSyncFacts.

(** ** The authenticated request pipeline *)

Module ApiClientFacts.
Import ApiClient.

Lemma run_app c a b : run c (a ++ b) = run (run c a) b.
Proof. apply fold_left_app. Qed.

Lemma lookup_last {A} (l : list A) (x : A) : (l ++ [x]) !! length l = Some x.
Proof. by rewrite list_lookup_middle. Qed.

Lemma insert_last {A} (l : list A) (x y : A) :
  <[ length l := y ]> (l ++ [x]) = l ++ [y].
Proof.
  rewrite insert_app_r_alt by lia. by rewrite Nat.sub_diag.
Qed.

Lemma authorize_url token cfg : url (authorize token cfg) = url cfg.
Proof. unfold authorize. by destruct (headers cfg). Qed.



(** While the flag is set, a first 401 only adds its request to the
    waiters. *)
Lemma on_error_waiter subs st ts p rs th e :
  first401 e ->
  on_error (Build_Client true subs st ts p rs th) e
  = Build_Client true (subs ++ [config e]) st ts p rs th.
Proof.
  intros [(r & Hr & H401) Hretry]. unfold on_error.
  rewrite Hr, H401, Hretry. reflexivity.
Qed.

Lemma run_waiters es : forall subs st ts p rs th,
  Forall first401 es ->
  run (Build_Client true subs st ts p rs th) (map ResponseError es)
  = Build_Client true (subs ++ map config es) st ts p rs th.
Proof.
  induction es as [|e es IH]; intros subs st ts p rs th Hall; simpl.
  - by rewrite app_nil_r.
  - inversion Hall as [|? ? He Hes]; subst.
    rewrite (on_error_waiter _ _ _ _ _ _ _ He), IH by assumption.
    by rewrite <- app_assoc.
Qed.

(** With the flag clear, a first 401 sets it and suspends at [getItem]. *)
Lemma on_error_refresher subs st ts p rs th e :
  first401 e ->
  on_error (Build_Client false subs st ts p rs th) e
  = Build_Client true subs st
      (ts ++ [{| originalRequest := mark_retry (config e);
                 phase := AwaitRefreshToken |}]) p rs th.
Proof.
  intros [(r & Hr & H401) Hretry]. unfold on_error.
  rewrite Hr, H401, Hretry. reflexivity.
Qed.

(** A 401 on a request already marked [_retry] starts nothing: the handler
    throws the [ApiError] of the response. *)
Lemma marked_retry_fails c cfg r message :
  _retry cfg = true -> status r = 401 -> data r = Some message ->
  on_error c {| config := cfg; response := Some r |}
  = throw c cfg (ApiErrorObj 401
      (default "An unexpected error occurred" (truthy message))).
Proof.
  intros Hm H401 Hd. unfold on_error. simpl.
  rewrite Hm, H401, Hd, andb_false_r. reflexivity.
Qed.

Lemma run_cons c e evs : run c (e :: evs) = run (step c e) evs.
Proof. reflexivity. Qed.

(** One continuation of the invocation at the end of the task list. *)
Ltac advance :=
  cbn [step]; try unfold on_storage; try unfold on_refresh;
  cbn [tasks]; rewrite ?lookup_last;
  cbn [phase originalRequest];
  try unfold set_task; try unfold enter_catch;
  cbn [tasks phase originalRequest storage isRefreshing refreshSubscribers
       posted resent thrown];
  rewrite ?insert_last.


(** The client just before the refreshing invocation resumes for the last
    time: the refresh was posted once, the new access token is stored, and
    all the other requests wait. *)
Lemma in_flight_state st ts p rs th r ws1 ws2 ws3 ws4 rt access refresh :
  truthy (st !! REFRESH_TOKEN) = Some rt ->
  first401 r -> Forall first401 (ws1 ++ ws2 ++ ws3 ++ ws4) ->
  run (Build_Client false [] st ts p rs th)
      (refresh_in_flight (length ts) r ws1 ws2 ws3 ws4 access refresh)
  = Build_Client true (map config (ws1 ++ ws2 ++ ws3 ++ ws4))
      (<[ ACCESS_TOKEN := access ]> st)
      (ts ++ [{| originalRequest := mark_retry (config r);
                 phase := AwaitSetRefresh access refresh |}])
      (p ++ [rt]) rs th.
Proof.
  intros Hrt Hr Hws.
  apply Forall_app in Hws as [Hw1 Hws]. apply Forall_app in Hws as [Hw2 Hws].
  apply Forall_app in Hws as [Hw3 Hw4].
  unfold refresh_in_flight. cbn [app].
  rewrite run_cons. advance. rewrite (on_error_refresher _ _ _ _ _ _ _ Hr).
  rewrite run_app, (run_waiters _ _ _ _ _ _ _ Hw1), run_cons.
  advance. rewrite Hrt. advance.
  rewrite run_app, (run_waiters _ _ _ _ _ _ _ Hw2), run_cons. advance.
  rewrite run_app, (run_waiters _ _ _ _ _ _ _ Hw3), run_cons. advance.
  rewrite (run_waiters _ _ _ _ _ _ _ Hw4).
  by rewrite <- !app_assoc, <- !map_app.
Qed.



Lemma clearAuthData_lookup st k :
  k = ACCESS_TOKEN \/ k = REFRESH_TOKEN \/ k = USER_DATA ->
  clearAuthData st !! k = None.
Proof.
  unfold clearAuthData. intros [-> | [-> | ->]].
  - rewrite !lookup_delete_ne by discriminate. apply lookup_delete_eq.
  - rewrite lookup_delete_ne by discriminate. apply lookup_delete_eq.
  - apply lookup_delete_eq.
Qed.

(** C10. A first 401 that enters the handler while no refresh is running
    and finds no refresh token in storage (none, or the empty string):
    whatever other first 401s arrive meanwhile, no refresh is posted and
    nothing is sent again, the three stored items are removed, and the
    request fails with [Error('Authentication required')]. *)
Theorem missing_refresh_token_requires_login c r ws1 ws2 :
  isRefreshing c = false ->
  truthy (storage c !! REFRESH_TOKEN) = None ->
  first401 r -> Forall first401 (ws1 ++ ws2) ->
  let c' := run c (no_token_round (length (tasks c)) r ws1 ws2) in
  posted c' = posted c /\
  resent c' = resent c /\
  thrown c' = thrown c ++ [(mark_retry (config r),
                            JsError "Authentication required")] /\
  storage c' !! ACCESS_TOKEN = None /\
  storage c' !! REFRESH_TOKEN = None /\
  storage c' !! USER_DATA = None /\
  isRefreshing c' = false.
Proof.
  destruct c as [b subs st ts p rs th].
  cbn [isRefreshing refreshSubscribers storage tasks posted resent thrown].
  intros -> Hrt Hr Hws. cbv zeta.
  apply Forall_app in Hws as [Hw1 Hw2].
  unfold no_token_round. cbn [app].
  rewrite run_cons. advance. rewrite (on_error_refresher _ _ _ _ _ _ _ Hr).
  rewrite run_app, (run_waiters _ _ _ _ _ _ _ Hw1), run_cons.
  advance. rewrite Hrt. advance.
  rewrite run_app, (run_waiters _ _ _ _ _ _ _ Hw2), !run_cons.
  advance. advance. cbn [run fold_left].
  cbn [isRefreshing refreshSubscribers storage tasks posted resent thrown].
  repeat (split; [done|]).
  repeat split; apply clearAuthData_lookup; auto.
Qed.

Lemma missing_refresh_token_requires_login_witness :
  let c' := run (initial ∅) (no_token_round 0 (unauthorized reqA) [] []) in
  posted c' = [] /\
  thrown c' = [(mark_retry reqA, JsError "Authentication required")].
Proof.
  assert (Hno : truthy (storage (initial ∅) !! REFRESH_TOKEN) = None)
    by reflexivity.
  destruct (missing_refresh_token_requires_login (initial ∅) (unauthorized reqA)
              [] [] eq_refl Hno
              (conj (ex_intro _ _ (conj eq_refl eq_refl)) eq_refl)
              (Forall_nil_2 _))
    as (Hp & _ & Ht & _).
  split; [exact Hp|exact Ht].
Defined.

Lemma mark_retry_url cfg : url (mark_retry cfg) = url cfg.
Proof. reflexivity. Qed.

(** Closes the [Forall] goals on the lists a step extends or updates. *)
Ltac forall_urls :=
  repeat first
    [ assumption
    | apply Forall_nil_2
    | apply Forall_app; split
    | apply Forall_cons_2
    | apply Forall_insert
    | rewrite Forall_map; eapply Forall_impl; [eassumption|];
      intros ? ?; simpl; rewrite authorize_url; assumption
    | progress (simpl; rewrite ?authorize_url) ].

(** A request that is neither a waiter nor the subject of a suspended
    invocation is resumed by no event that does not bring it in again. *)
Lemma step_forgets u c ev :
  quiet_about u ev -> forgotten u c -> unresumed u c ->
  forgotten u (step c ev) /\ unresumed u (step c ev).
Proof.
  intros Hq [Hsubs Htasks] [Hres Hthr].
  destruct ev as [e|t|t r]; simpl in Hq; simpl.
  - unfold on_error.
    destruct (_ && negb (_retry (config e)));
      [destruct (isRefreshing c)
      |destruct (response e) as [r|]; [destruct (data r)|]];
      split; split; simpl; forall_urls.
  - unfold on_storage. destruct (tasks c !! t) as [k|] eqn:Hk; [|done].
    pose proof (Forall_lookup_1 _ _ _ _ Htasks Hk) as Hu. simpl in Hu.
    destruct (phase k);
      try destruct (truthy (storage c !! REFRESH_TOKEN));
      split; split; simpl; forall_urls.
  - unfold on_refresh. destruct (tasks c !! t) as [k|] eqn:Hk; [|done].
    pose proof (Forall_lookup_1 _ _ _ _ Htasks Hk) as Hu. simpl in Hu.
    destruct (phase k); try destruct r as [[access refresh]|];
      split; split; simpl; forall_urls.
Qed.

Lemma run_forgets u evs : forall c,
  Forall (quiet_about u) evs -> forgotten u c -> unresumed u c ->
  forgotten u (run c evs) /\ unresumed u (run c evs).
Proof.
  induction evs as [|ev evs IH]; intros c Hq Hf Hu; [done|].
  inversion Hq as [|? ? Hev Hevs]; subst.
  destruct (step_forgets u c ev Hev Hf Hu) as [Hf' Hu'].
  rewrite run_cons. by apply IH.
Qed.

(** C2, the handler at a failing refresh. With tokens stored, the 401 of
    [reqA] starts the refresh and the 401 of [reqB] registers [reqB] as a
    waiter; the refresh POST is rejected. The stored items are removed and
    [reqA] fails with [Error('Authentication required')]; the waiter list
    is emptied without calling the waiters: [reqB] is neither sent again
    nor failed, and no later event that does not bring [reqB] in again
    ever resumes it. *)
Theorem failed_refresh_drops_waiters :
  let registered :=
    run (initial session)
        [ResponseError (unauthorized reqA); ResponseError (unauthorized reqB);
         StorageDone 0] in
  let failed := run registered [RefreshReply 0 None; StorageDone 0] in
  (refreshSubscribers registered = [reqB] /\ posted registered = ["refresh-1"]) /\
  (storage failed !! ACCESS_TOKEN = None /\
   storage failed !! REFRESH_TOKEN = None /\
   storage failed !! USER_DATA = None) /\
  thrown failed = [(mark_retry reqA, JsError "Authentication required")] /\
  resent failed = [] /\
  refreshSubscribers failed = [] /\ isRefreshing failed = false /\
  (forall evs, Forall (quiet_about (url reqB)) evs ->
     unresumed (url reqB) (run failed evs)).
Proof.
  cbv zeta. split; [split; vm_compute; reflexivity|].
  split; [split; [|split]; vm_compute; reflexivity|].
  do 4 (split; [vm_compute; reflexivity|]).
  intros evs Hq. apply run_forgets; [exact Hq| |]; split; vm_compute;
    try apply Forall_nil_2;
    (apply Forall_cons_2; [discriminate|apply Forall_nil_2]).
Qed.

(** C4, the handler at a waiter's second 401. [reqB] waits for the refresh
    started by [reqA] and is sent again after it, still not marked
    [_retry]; when this retry is answered 401 in turn, the handler starts a
    second refresh for it and sends it once more: [reqB] went through two
    refresh-and-retry cycles. Only the third 401 is thrown to the caller. *)
Theorem waiter_refreshed_twice :
  let round1 := refresh_round 0 (unauthorized reqA) [unauthorized reqB]
                  [] [] [] "access-2" "refresh-2" in
  let reqB' := authorize "access-2" reqB in
  let round2 := refresh_round 1 (unauthorized reqB') [] [] [] []
                  "access-3" "refresh-3" in
  let reqB'' := authorize "access-3" (mark_retry reqB') in
  let c1 := run (initial session) round1 in
  let c2 := run c1 round2 in
  let c3 := run c2 [ResponseError (unauthorized reqB'')] in
  (resent c1 = [reqB'; authorize "access-2" (mark_retry reqA)] /\
   _retry reqB' = false /\ posted c1 = ["refresh-1"]) /\
  (posted c2 = ["refresh-1"; "refresh-2"] /\
   resent c2 = resent c1 ++ [reqB''] /\ thrown c2 = []) /\
  (posted c3 = posted c2 /\ resent c3 = resent c2 /\
   thrown c3 = [(reqB'', ApiErrorObj 401 "Unauthorized")]).
Proof.
  cbv zeta.
  split; [split; [|split]; vm_compute; reflexivity|].
  split; split; [| split | | split]; vm_compute; reflexivity.
Qed.

End ApiClientFacts.

(** ** More on the service worker: life cycle and routing *)

Module LifecycleFacts.
Import ServiceWorker.

Lemma append_empty_r (s : string) : s +:+ "" = s.
Proof.
  induction s as [|c s IH]; [reflexivity|].
  change (String c (s +:+ "") = String c s). by rewrite IH.
Qed.

Lemma url_get o p d : url (get o p d) = o +:+ p.
Proof.
  unfold url, get. cbn [origin pathname search]. by rewrite append_empty_r.
Qed.

Lemma manifest_is_static o p d :
  In p STATIC_ASSETS -> is_static (get o p d) = true.
Proof.
  intros Hin. unfold is_static, Js.arrayIncludes.
  apply orb_true_iff. left. apply existsb_exists.
  exists p. split; [exact Hin|]. simpl. apply String.eqb_refl.
Qed.

Lemma cache_entry_activate cs name key :
  cache_entry (activate cs) name key
  = if is_current name then cache_entry cs name key else None.
Proof.
  induction cs as [|[n c] rest IH]; simpl.
  - by destruct (is_current name).
  - destruct (is_current n) eqn:En; simpl;
      destruct (String.eqb_spec n name) as [->|Hne]; try exact IH.
    + by rewrite En.
    + rewrite IH. by rewrite En.
Qed.

(** X1. Activation keeps exactly the caches of the current version: every
    cache left has one of the four current names, every entry of a current
    cache is still there, nothing can be read from any other name, and
    activating again changes nothing. *)
Theorem activate_keeps_current_caches cs :
  Forall (fun nc => is_current (fst nc) = true) (activate cs) /\
  (forall name key, is_current name = true ->
     cache_entry (activate cs) name key = cache_entry cs name key) /\
  (forall name key, is_current name = false ->
     cache_entry (activate cs) name key = None) /\
  activate (activate cs) = activate cs.
Proof.
  split; [|split; [|split]].
  - apply List.Forall_forall. intros nc Hin.
    apply filter_In in Hin. tauto.
  - intros name key Hc. by rewrite cache_entry_activate, Hc.
  - intros name key Hc. by rewrite cache_entry_activate, Hc.
  - unfold activate. induction cs as [|[n c] rest IH]; [reflexivity|].
    simpl. destruct (is_current n) eqn:En; simpl; [|exact IH].
    rewrite En. by rewrite IH.
Qed.

Lemma caches_match_open cs name key :
  caches_match (caches_open cs name) key = caches_match cs key.
Proof.
  induction cs as [|[n c] rest IH]; simpl; [reflexivity|].
  destruct (String.eqb n name); simpl; [reflexivity|]. by rewrite IH.
Qed.

Lemma cache_entry_put_other cs name key r name' key' :
  name' <> name \/ key' <> key ->
  cache_entry (caches_put cs name key r) name' key' = cache_entry cs name' key'.
Proof.
  intros Hne. induction cs as [|[n c] rest IH]; simpl.
  - destruct (String.eqb_spec name name') as [<-|_]; [|reflexivity].
    destruct Hne as [Hn|Hk]; [done|]. by rewrite lookup_singleton_ne.
  - destruct (String.eqb_spec n name) as [->|Hn]; simpl.
    + destruct (String.eqb_spec name name') as [<-|_]; [|reflexivity].
      destruct Hne as [Hn|Hk]; [done|]. by rewrite lookup_insert_ne.
    + destruct (String.eqb n name'); [reflexivity|exact IH].
Qed.

Lemma caches_match_put_other cs name key r key' :
  key' <> key ->
  caches_match (caches_put cs name key r) key' = caches_match cs key'.
Proof.
  intros Hne. induction cs as [|[n c] rest IH]; simpl.
  - by rewrite lookup_singleton_ne.
  - destruct (String.eqb n name); simpl.
    + by rewrite lookup_insert_ne.
    + by rewrite IH.
Qed.

Lemma cache_entry_put_all entries : forall cs name k,
  In k (map fst entries) \/ is_Some (cache_entry cs name k) ->
  is_Some (cache_entry (put_all cs name entries) name k).
Proof.
  induction entries as [|[u r] rest IH]; intros cs name k H; simpl in *.
  - destruct H as [[]|H]. exact H.
  - apply IH. destruct (String.eqb_spec k u) as [->|Hne].
    + right. rewrite ServiceWorkerFacts.cache_entry_put. by eexists.
    + destruct H as [[H|H]|H]; [congruence|by left|right].
      rewrite cache_entry_put_other by (right; exact Hne). exact H.
Qed.

Lemma fetch_all_ok net urls :
  (forall u, In u urls -> exists r, net u = NetResponse r /\ ok r = true) ->
  exists entries, fetch_all net urls = Some entries /\ map fst entries = urls.
Proof.
  induction urls as [|u rest IH]; intros H; simpl.
  - by exists [].
  - destruct (H u (or_introl eq_refl)) as (r & -> & ->).
    destruct IH as (entries & -> & Hm); [intros; apply H; by right|].
    exists ((u, r) :: entries). simpl. by rewrite Hm.
Qed.

Lemma fetch_all_fails net urls u :
  In u urls -> (forall r, net u = NetResponse r -> ok r = false) ->
  fetch_all net urls = None.
Proof.
  induction urls as [|v rest IH]; intros Hin Hbad; [destruct Hin|].
  simpl. destruct Hin as [->|Hin].
  - destruct (net u) as [r|e]; [|reflexivity]. by rewrite (Hbad r eq_refl).
  - destruct (net v) as [r|e]; [|reflexivity].
    destruct (ok r); [|reflexivity]. by rewrite (IH Hin Hbad).
Qed.

(** X2. When every asset of the manifest is fetched with an [ok] response
    at install time, nothing is logged, and from then on a GET of any
    manifest path is answered from the cache with no fetch, whatever the
    network would do. *)
Theorem precached_assets_served_offline o cs net path :
  (forall p, In p STATIC_ASSETS ->
     exists r, net (o +:+ p) = NetResponse r /\ ok r = true) ->
  In path STATIC_ASSETS ->
  snd (install o cs net) = None /\
  forall net' dest, exists r,
    fetch_listener o (fst (install o cs net)) net' (get o path dest)
    = Some {| answer := Immediate r;
              caches_after := fst (install o cs net);
              effects := [CacheMatch (o +:+ path)] |}.
Proof.
  intros Hnet Hin. unfold install.
  destruct (fetch_all_ok net (map (fun p => o +:+ p) STATIC_ASSETS))
    as (entries & -> & Hm).
  { intros u Hu. apply in_map_iff in Hu as (p & <- & Hp). by apply Hnet. }
  split; [reflexivity|]. intros net' dest. cbn [fst].
  destruct (cache_entry_put_all entries (caches_open cs STATIC_CACHE)
              STATIC_CACHE (o +:+ path)) as [r0 Hr0].
  { left. rewrite Hm. apply in_map_iff. by exists path. }
  destruct (ServiceWorkerFacts.cache_entry_match _ _ _ _ Hr0) as [r Hr].
  exists r.
  rewrite (ServiceWorkerFacts.listener_static o)
    by (try split; try reflexivity; by apply manifest_is_static).
  rewrite <- (url_get o path dest) in Hr |- *.
  f_equal. by apply ServiceWorkerFacts.cache_first_hit.
Qed.

Lemma precached_assets_served_offline_witness :
  exists r,
    fetch_listener app_origin (fst (install app_origin [] online))
      (NetError "offline") (get app_origin "/index.html" "document")
    = Some {| answer := Immediate r;
              caches_after := fst (install app_origin [] online);
              effects := [CacheMatch (app_origin +:+ "/index.html")] |}.
Proof.
  apply (proj2 (precached_assets_served_offline app_origin [] online
                  "/index.html"
                  (fun p _ => ex_intro _ _ (conj eq_refl eq_refl))
                  (or_intror (or_introl eq_refl)))).
Defined.

(** X3. When one asset of the manifest cannot be fetched, or is answered
    with a status outside 200-299, the failure is logged and swallowed and
    no entry at all is added: every lookup answers as before the install. *)
Theorem failed_install_stores_nothing o cs net path :
  In path STATIC_ASSETS ->
  (forall r, net (o +:+ path) = NetResponse r -> ok r = false) ->
  snd (install o cs net) = Some "[Service Worker] Precaching failed:" /\
  forall key, caches_match (fst (install o cs net)) key = caches_match cs key.
Proof.
  intros Hin Hbad. unfold install.
  rewrite (fetch_all_fails net _ (o +:+ path)); [| |exact Hbad].
  - split; [reflexivity|]. intros key. apply caches_match_open.
  - apply in_map_iff. by exists path.
Qed.

Lemma failed_install_stores_nothing_witness :
  snd (install app_origin precached without_manifest)
  = Some "[Service Worker] Precaching failed:" /\
  caches_match (fst (install app_origin precached without_manifest))
    (app_origin +:+ "/index.html")
  = caches_match precached (app_origin +:+ "/index.html").
Proof.
  assert (Hbad : forall r, without_manifest (app_origin +:+ "/manifest.json")
                           = NetResponse r -> ok r = false)
    by (intros r; discriminate).
  destruct (failed_install_stores_nothing app_origin precached without_manifest
              "/manifest.json" (or_intror (or_intror (or_introl eq_refl))) Hbad)
    as [Hlog Hsame].
  split; [exact Hlog|apply Hsame].
Defined.

End LifecycleFacts.

Module RoutingFacts.
Import ServiceWorker.

(** X4. The listener answers exactly the same-origin GET requests: it
    leaves a request alone if and only if its method is not GET or its
    origin is not the worker's. *)
Theorem listener_answers_same_origin_gets o cs net request :
  fetch_listener o cs net request = None
  <-> method request <> "GET" \/ origin request <> o.
Proof.
  unfold fetch_listener.
  destruct (String.eqb_spec (method request) "GET") as [Hm|Hm];
    destruct (String.eqb_spec (origin request) o) as [Ho|Ho]; simpl;
    try (split; [auto|reflexivity]).
  split; [|tauto].
  destruct (_ || Js.startsWith _ _); [discriminate|].
  destruct (isImageRequest request); [discriminate|].
  destruct (isApiRequest request); discriminate.
Qed.

(** What a fetch event can do to the caches: nothing, or one [put] of a
    status-200 response under the request's URL in the cache of its
    strategy. *)
Lemma caches_after_cases o cs net request h :
  fetch_listener o cs net request = Some h ->
  caches_after h = cs \/
  exists nr, net = NetResponse nr /\ status nr = 200 /\
    caches_after h = caches_put cs (target_cache request) (url request) nr.
Proof.
  unfold fetch_listener, target_cache, is_static.
  destruct (_ || negb _); [discriminate|].
  destruct (_ || Js.startsWith _ _);
    [|destruct (isImageRequest request); [|destruct (isApiRequest request)]];
    intros [= <-];
    unfold cache_first, image_strategy, stale_while_revalidate,
      cached_or_fetch, network_first, store_if_200;
    destruct (caches_match cs (url request)); destruct net as [nr|e];
    try (by left);
    destruct (Nat.eqb_spec (status nr) 200); simpl; eauto.
Qed.

(** X6. A fetch event changes at most one cache entry: every entry under
    another URL, and every entry of a cache other than the one of the
    request's strategy, is as before, lookups for other URLs answer as
    before, and the caches change at all only when the network answered
    with status 200. *)
Theorem fetch_changes_only_its_entry o cs net request h :
  fetch_listener o cs net request = Some h ->
  (forall name key, name <> target_cache request \/ key <> url request ->
     cache_entry (caches_after h) name key = cache_entry cs name key) /\
  (forall key, key <> url request ->
     caches_match (caches_after h) key = caches_match cs key) /\
  (caches_after h <> cs -> exists nr, net = NetResponse nr /\ status nr = 200).
Proof.
  intros Hl.
  destruct (caches_after_cases _ _ _ _ _ Hl) as [->|(nr & -> & H200 & ->)].
  - split; [reflexivity|]. split; [reflexivity|]. intros H. by destruct H.
  - split; [|split].
    + intros name key Hne. by apply LifecycleFacts.cache_entry_put_other.
    + intros key Hne. by apply LifecycleFacts.caches_match_put_other.
    + intros _. eauto.
Qed.

Lemma fetch_changes_only_its_entry_witness :
  let h := stale_while_revalidate visited (NetResponse (ok_response "new"))
             page_request in
  caches_match (caches_after h) (url icon_request)
  = caches_match visited (url icon_request).
Proof.
  apply (proj1 (proj2 (fetch_changes_only_its_entry app_origin visited
                         (NetResponse (ok_response "new")) page_request _
                         eq_refl))).
  discriminate.
Defined.

(** X5. The promise given to [respondWith] is rejected in one case only:
    a static asset that no cache holds while the fetch fails, and then
    with the error of the fetch. Every other strategy, and every other
    case of cache-first, fulfils. *)
Theorem only_cache_first_miss_rejects o cs net request h e :
  fetch_listener o cs net request = Some h ->
  (settle (answer h) = Rejected e
   <-> is_static request = true /\ caches_match cs (url request) = None /\
       net = NetError e).
Proof.
  unfold fetch_listener, is_static.
  destruct (_ || negb _); [discriminate|].
  destruct (_ || Js.startsWith _ _);
    [|destruct (isImageRequest request); [|destruct (isApiRequest request)]];
    intros [= <-];
    unfold cache_first, image_strategy, stale_while_revalidate,
      cached_or_fetch, network_first, store_if_200;
    destruct (caches_match cs (url request)); destruct net as [nr|e'];
    try destruct (status nr =? 200)%nat; simpl;
    (split; [intros [= ->] || discriminate|intros (H1 & H2 & H3)];
     try done; try congruence).
Qed.

Lemma only_cache_first_miss_rejects_witness :
  settle (answer (cache_first [] (NetError "offline") icon_request))
  = Rejected "offline".
Proof.
  apply (proj2 (only_cache_first_miss_rejects app_origin [] (NetError "offline")
                  icon_request _ "offline" eq_refl)).
  split; [reflexivity|]. split; reflexivity.
Defined.

End RoutingFacts.

Module ClassificationFacts.
Import ServiceWorker.




Lemma prefix_app sub : forall s q,
  String.prefix sub s = true -> String.prefix sub (s +:+ q) = true.
Proof.
  induction sub as [|a sub IH]; intros s q H.
  - by destruct (s +:+ q).
  - destruct s as [|b s]; [discriminate|].
    change (String.prefix (String a sub) (String b (s +:+ q)) = true).
    cbn in *. destruct (Ascii.ascii_dec a b); [|discriminate]. by apply IH.
Qed.

Lemma includes_app_r s : forall sub q,
  Js.includes s sub = true -> Js.includes (s +:+ q) sub = true.
Proof.
  induction s as [|c s IH]; intros sub q H.
  - cbn in H. rewrite orb_false_r in H.
    destruct sub; [|discriminate]. by destruct q.
  - change (String.prefix sub (String c s) || Js.includes s sub = true) in H.
    change (String.prefix sub (String c s +:+ q)
            || Js.includes (s +:+ q) sub = true).
    apply orb_true_iff in H as [H|H]; apply orb_true_iff.
    + left. by apply prefix_app.
    + right. by apply IH.
Qed.

Lemma includes_app_l p : forall s sub,
  Js.includes s sub = true -> Js.includes (p +:+ s) sub = true.
Proof.
  induction p as [|c p IH]; intros s sub H; [exact H|].
  change (String.prefix sub (String c (p +:+ s))
          || Js.includes (p +:+ s) sub = true).
  apply orb_true_iff. right. by apply IH.
Qed.

(** X8. The API test looks at the whole URL: a request whose origin, path
    or query string contains [/api/], [/analyze] or [/vehicle] anywhere is
    an API request, so that, unless it is a static asset or an image, it
    is served network-first. *)
Theorem api_marker_anywhere o cs net request marker :
  In marker ["/api/"; "/analyze"; "/vehicle"] ->
  Js.includes (origin request) marker = true
  \/ Js.includes (pathname request) marker = true
  \/ Js.includes (search request) marker = true ->
  isApiRequest request = true /\
  (handled o request -> is_static request = false ->
   isImageRequest request = false ->
   fetch_listener o cs net request = Some (network_first cs net request)).
Proof.
  intros Hm Hin.
  assert (Hu : Js.includes (url request) marker = true).
  { unfold url. destruct Hin as [H|[H|H]].
    - by apply includes_app_r.
    - by apply includes_app_l, includes_app_r.
    - by apply includes_app_l, includes_app_l. }
  assert (Ha : isApiRequest request = true).
  { unfold isApiRequest.
    destruct Hm as [<-|[<-|[<-|[]]]]; rewrite Hu; by rewrite ?orb_true_r. }
  split; [exact Ha|]. intros Hh Hs Hi.
  by apply ServiceWorkerFacts.listener_api.
Qed.

Lemma api_marker_anywhere_witness :
  isApiRequest {| method := "GET"; origin := app_origin; pathname := "/about";
                  search := "?from=/vehicle/42"; destination := "document" |}
  = true.
Proof.
  apply (api_marker_anywhere app_origin [] (NetError "offline")
           {| method := "GET"; origin := app_origin; pathname := "/about";
              search := "?from=/vehicle/42"; destination := "document" |}
           "/vehicle").
  - right. right. left. reflexivity.
  - right. right. reflexivity.
Defined.

End ClassificationFacts.

(** ** More on the authenticated request pipeline *)

Module PipelineFacts.
Import ApiClient.

Definition b2n (b : bool) : nat := if b then 1 else 0.

Lemma count_insert {A} (f : A -> bool) (ts : list A) : forall t k k',
  ts !! t = Some k ->
  length (List.filter f (<[ t := k' ]> ts)) + b2n (f k)
  = length (List.filter f ts) + b2n (f k').
Proof.
  induction ts as [|x ts IH]; intros t k k' Hk; [done|].
  destruct t as [|t]; simpl in *.
  - injection Hk as ->. destruct (f k), (f k'); simpl; lia.
  - specialize (IH t k k' Hk). destruct (f x); simpl; lia.
Qed.

Lemma count_snoc {A} (f : A -> bool) (ts : list A) (k : A) :
  length (List.filter f (ts ++ [k])) = length (List.filter f ts) + b2n (f k).
Proof.
  rewrite List.filter_app, length_app. simpl. by destruct (f k).
Qed.

Lemma count_weaker {A} (f g : A -> bool) (ts : list A) :
  (forall x, g x = true -> f x = true) ->
  length (List.filter g ts) <= length (List.filter f ts).
Proof.
  intros Himp. induction ts as [|x ts IH]; simpl; [lia|].
  destruct (g x) eqn:Eg.
  - rewrite (Himp x Eg). simpl. lia.
  - destruct (f x); simpl; lia.
Qed.

(** Uses the equation of [count_insert] for the update of task [t]. *)
Ltac count_task Hk Hp :=
  match goal with
  | |- context [<[ ?t := ?k' ]> (tasks ?c)] =>
      pose proof (count_insert (fun k => in_refresh (phase k))
                    (tasks c) t _ k' Hk) as Hcount;
      cbn [phase] in Hcount; rewrite Hp in Hcount; simpl in Hcount
  end.

Lemma step_single_flight c ev : single_flight c -> single_flight (step c ev).
Proof.
  unfold single_flight, refreshing. intros [Hn Hs].
  destruct ev as [e|t|t r]; simpl.
  - unfold on_error.
    destruct (_ && negb (_retry (config e)));
      [destruct (isRefreshing c) eqn:Hf
      |destruct (response e) as [r|]; [destruct (data r)|]];
      simpl; rewrite ?Hf in *; rewrite ?count_snoc; simpl;
      split; try done; lia.
  - unfold on_storage. destruct (tasks c !! t) as [k|] eqn:Hk; [|done].
    destruct (phase k) eqn:Hp;
      try destruct (truthy (storage c !! REFRESH_TOKEN));
      try done; simpl; count_task Hk Hp;
      destruct (isRefreshing c); simpl in *; split; try done; lia.
  - unfold on_refresh. destruct (tasks c !! t) as [k|] eqn:Hk; [|done].
    destruct (phase k) eqn:Hp; try done.
    destruct r as [[access refresh]|]; simpl; count_task Hk Hp;
      destruct (isRefreshing c); simpl in *; split; try done; lia.
Qed.

Lemma run_single_flight evs : forall c,
  single_flight c -> single_flight (run c evs).
Proof.
  induction evs as [|ev evs IH]; intros c Hc; [exact Hc|].
  apply IH. by apply step_single_flight.
Qed.

(** X9. Single flight, in every reachable state. Whatever 401s, storage
    completions and refresh answers arrive in whatever order, at most one
    invocation is inside the refresh section, and there is one exactly
    while [isRefreshing] is set; at most one refresh POST awaits its
    answer; and no waiter is registered while the flag is clear. *)
Theorem single_flight_always st evs :
  let c := run (initial st) evs in
  length (refreshing c) <= 1 /\
  (isRefreshing c = true <-> length (refreshing c) = 1) /\
  length (awaiting_post c) <= 1 /\
  (isRefreshing c = false -> refreshSubscribers c = []).
Proof.
  cbv zeta.
  destruct (run_single_flight evs (initial st)) as [Hn Hs]; [by split|].
  assert (Hp : length (awaiting_post (run (initial st) evs))
               <= length (refreshing (run (initial st) evs))).
  { apply count_weaker. intros k. by destruct (phase k). }
  destruct (isRefreshing (run (initial st) evs)); repeat split; try done; lia.
Qed.

Lemma truthy_nonempty s : s <> "" -> truthy (Some s) = Some s.
Proof.
  intros Hs. simpl. by destruct (String.eqb_spec s "").
Qed.

Lemma truthy_is_nonempty v s : truthy v = Some s -> s <> "".
Proof.
  destruct v as [s'|]; simpl; [|discriminate].
  destruct (String.eqb_spec s' ""); [discriminate|]. by intros [= <-].
Qed.

(** X10. A refresh that is rejected: whatever first 401s arrived before
    the rejection, one refresh was posted, the three stored items are
    removed, the request that started the refresh fails with
    [Error('Authentication required')], no request is sent again, and the
    client is idle with an empty waiter list. *)
Theorem rejected_refresh_ends_session c r ws1 ws2 rt :
  isRefreshing c = false ->
  truthy (storage c !! REFRESH_TOKEN) = Some rt ->
  first401 r -> Forall first401 (ws1 ++ ws2) ->
  let c' := run c (failed_round (length (tasks c)) r ws1 ws2) in
  posted c' = posted c ++ [rt] /\
  resent c' = resent c /\
  thrown c' = thrown c ++ [(mark_retry (config r),
                            JsError "Authentication required")] /\
  (storage c' !! ACCESS_TOKEN = None /\
   storage c' !! REFRESH_TOKEN = None /\
   storage c' !! USER_DATA = None) /\
  isRefreshing c' = false /\ refreshSubscribers c' = [].
Proof.
  destruct c as [b subs st ts p rs th].
  cbn [isRefreshing refreshSubscribers storage tasks posted resent thrown].
  intros -> Hrt Hr Hws. cbv zeta.
  apply Forall_app in Hws as [Hw1 Hw2].
  unfold failed_round. cbn [app].
  rewrite ApiClientFacts.run_cons. ApiClientFacts.advance.
  rewrite (ApiClientFacts.on_error_refresher _ _ _ _ _ _ _ Hr).
  rewrite ApiClientFacts.run_app,
    (ApiClientFacts.run_waiters _ _ _ _ _ _ _ Hw1), ApiClientFacts.run_cons.
  ApiClientFacts.advance. rewrite Hrt. ApiClientFacts.advance.
  rewrite ApiClientFacts.run_app,
    (ApiClientFacts.run_waiters _ _ _ _ _ _ _ Hw2), !ApiClientFacts.run_cons.
  ApiClientFacts.advance. ApiClientFacts.advance. cbn [run fold_left].
  cbn [isRefreshing refreshSubscribers storage tasks posted resent thrown].
  do 3 (split; [done|]).
  split; [|done].
  repeat split; apply ApiClientFacts.clearAuthData_lookup; auto.
Qed.

Lemma rejected_refresh_ends_session_witness :
  let c' := run (initial session)
              (failed_round 0 (unauthorized reqA) [unauthorized reqB] []) in
  posted c' = ["refresh-1"] /\ resent c' = [].
Proof.
  assert (Hrt : truthy (storage (initial session) !! REFRESH_TOKEN)
                = Some "refresh-1") by reflexivity.
  assert (H401 : forall cfg, _retry cfg = false -> first401 (unauthorized cfg)).
  { intros cfg Hc. split; [eexists; split; reflexivity|exact Hc]. }
  destruct (rejected_refresh_ends_session (initial session) (unauthorized reqA)
              [unauthorized reqB] [] "refresh-1" eq_refl Hrt
              (H401 reqA eq_refl)
              (Forall_cons_2 _ _ _ (H401 reqB eq_refl) (Forall_nil_2 _)))
    as (Hp & Hr & _).
  split; [exact Hp|exact Hr].
Defined.

(** The client after a whole successful round. *)
Lemma round_state st ts p rs th r ws1 ws2 ws3 ws4 rt access refresh :
  truthy (st !! REFRESH_TOKEN) = Some rt ->
  first401 r -> Forall first401 (ws1 ++ ws2 ++ ws3 ++ ws4) ->
  run (Build_Client false [] st ts p rs th)
      (refresh_round (length ts) r ws1 ws2 ws3 ws4 access refresh)
  = Build_Client false []
      (<[ REFRESH_TOKEN := refresh ]> (<[ ACCESS_TOKEN := access ]> st))
      (ts ++ [{| originalRequest := authorize access (mark_retry (config r));
                 phase := Done |}])
      (p ++ [rt])
      (rs ++ map (authorize access) (map config (ws1 ++ ws2 ++ ws3 ++ ws4))
          ++ [authorize access (mark_retry (config r))])
      th.
Proof.
  intros Hrt Hr Hws. unfold refresh_round.
  rewrite ApiClientFacts.run_app,
    (ApiClientFacts.in_flight_state _ _ _ _ _ _ _ _ _ _ _ access refresh
       Hrt Hr Hws).
  rewrite ApiClientFacts.run_cons. ApiClientFacts.advance. reflexivity.
Qed.

(** X11. Token rotation. After a successful refresh that returned a
    non-empty refresh token, the next expiry posts that token, not the one
    the first refresh used, and leaves the pair of the second answer in
    storage. *)
Theorem next_refresh_uses_rotated_token c r1 r2 ws rt a1 f1 a2 f2 :
  isRefreshing c = false -> refreshSubscribers c = [] ->
  truthy (storage c !! REFRESH_TOKEN) = Some rt -> f1 <> "" ->
  first401 r1 -> first401 r2 -> Forall first401 ws ->
  let t := length (tasks c) in
  let c' := run c (refresh_round t r1 ws [] [] [] a1 f1
                   ++ refresh_round (S t) r2 [] [] [] [] a2 f2) in
  posted c' = posted c ++ [rt; f1] /\
  storage c' !! ACCESS_TOKEN = Some a2 /\
  storage c' !! REFRESH_TOKEN = Some f2 /\
  isRefreshing c' = false.
Proof.
  destruct c as [b subs st ts p rs th].
  cbn [isRefreshing refreshSubscribers storage tasks posted resent thrown].
  intros -> -> Hrt Hf1 Hr1 Hr2 Hws. cbv zeta.
  rewrite ApiClientFacts.run_app.
  rewrite (round_state _ _ _ _ _ _ ws [] [] [] rt a1 f1 Hrt Hr1)
    by (by rewrite !app_nil_r).
  match goal with
  | |- context [Build_Client false [] ?st' (ts ++ [?k]) _ _ _] =>
      replace (S (length ts)) with (length (ts ++ [k]))
        by (rewrite length_app; simpl; lia);
      rewrite (round_state st' (ts ++ [k]) _ _ _ r2 [] [] [] [] f1 a2 f2)
  end.
  - cbn [isRefreshing refreshSubscribers storage tasks posted resent thrown].
    split; [by rewrite <- app_assoc|].
    split; [|split; [|done]].
    + rewrite lookup_insert_ne by discriminate. apply lookup_insert_eq.
    + apply lookup_insert_eq.
  - rewrite lookup_insert_eq. by apply truthy_nonempty.
  - exact Hr2.
  - constructor.
Qed.

Lemma next_refresh_uses_rotated_token_witness :
  let c' := run (initial session)
              (refresh_round 0 (unauthorized reqA) [] [] [] [] "access-2" "refresh-2"
               ++ refresh_round 1 (unauthorized reqB) [] [] [] [] "access-3" "refresh-3") in
  posted c' = ["refresh-1"; "refresh-2"].
Proof.
  assert (Hrt : truthy (storage (initial session) !! REFRESH_TOKEN)
                = Some "refresh-1") by reflexivity.
  assert (H401 : forall cfg, _retry cfg = false -> first401 (unauthorized cfg)).
  { intros cfg Hc. split; [eexists; split; reflexivity|exact Hc]. }
  assert (Hne : "refresh-2" <> "") by discriminate.
  exact (proj1 (next_refresh_uses_rotated_token (initial session)
                  (unauthorized reqA) (unauthorized reqB) [] "refresh-1"
                  "access-2" "refresh-2" "access-3" "refresh-3"
                  eq_refl eq_refl Hrt Hne (H401 reqA eq_refl)
                  (H401 reqB eq_refl) (Forall_nil_2 _))).
Defined.

(** X12. The new pair is written in two steps. While the refreshing
    invocation waits for its second [setItem], the storage holds the new
    access token next to the refresh token that was there before, and a
    request sent at that moment already carries the new access token. *)
Theorem tokens_replaced_in_two_steps c r ws1 ws2 ws3 ws4 rt access refresh :
  isRefreshing c = false -> refreshSubscribers c = [] ->
  truthy (storage c !! REFRESH_TOKEN) = Some rt ->
  first401 r -> Forall first401 (ws1 ++ ws2 ++ ws3 ++ ws4) ->
  let c1 := run c (refresh_in_flight (length (tasks c)) r ws1 ws2 ws3 ws4
                     access refresh) in
  storage c1 !! ACCESS_TOKEN = Some access /\
  storage c1 !! REFRESH_TOKEN = storage c !! REFRESH_TOKEN /\
  isRefreshing c1 = true /\
  (access <> "" ->
   forall cfg, request_interceptor true (storage c1) cfg
               = inr (authorize access cfg)).
Proof.
  destruct c as [b subs st ts p rs th].
  cbn [isRefreshing refreshSubscribers storage tasks posted resent thrown].
  intros -> -> Hrt Hr Hws. cbv zeta.
  rewrite (ApiClientFacts.in_flight_state _ _ _ _ _ _ _ _ _ _ _ access refresh
             Hrt Hr Hws).
  cbn [isRefreshing storage].
  split; [apply lookup_insert_eq|].
  split; [by rewrite lookup_insert_ne|]. split; [done|].
  intros Ha cfg. unfold request_interceptor. simpl negb. cbv iota.
  rewrite lookup_insert_eq. by rewrite (truthy_nonempty _ Ha).
Qed.

Lemma tokens_replaced_in_two_steps_witness :
  let c1 := run (initial session)
              (refresh_in_flight 0 (unauthorized reqA) [] [] [] []
                 "access-2" "refresh-2") in
  storage c1 !! ACCESS_TOKEN = Some "access-2" /\
  storage c1 !! REFRESH_TOKEN = storage (initial session) !! REFRESH_TOKEN.
Proof.
  assert (Hrt : truthy (storage (initial session) !! REFRESH_TOKEN)
                = Some "refresh-1") by reflexivity.
  destruct (tokens_replaced_in_two_steps (initial session) (unauthorized reqA)
              [] [] [] [] "refresh-1" "access-2" "refresh-2"
              eq_refl eq_refl Hrt
              (conj (ex_intro _ _ (conj eq_refl eq_refl)) eq_refl)
              (Forall_nil_2 _))
    as (Ha & Hf & _).
  split; [exact Ha|exact Hf].
Defined.

Lemma default_truthy_nonempty d v : d <> "" -> default d (truthy v) <> "".
Proof.
  intros Hd. destruct (truthy v) as [s|] eqn:E; simpl; [|exact Hd].
  by apply (truthy_is_nonempty v).
Qed.

Lemma wrap_500_well_formed msg : well_formed (wrap_500 msg).
Proof.
  split; [discriminate|]. by apply default_truthy_nonempty.
Qed.

Lemma api_error_well_formed st msg :
  msg <> "" -> well_formed (request_catch (ApiErrorObj st msg)).
Proof.
  intros Hm. simpl. destruct (Nat.eqb_spec st 0); [apply wrap_500_well_formed|].
  by split.
Qed.

Lemma step_thrown_well_formed c ev :
  Forall (fun x => well_formed (request_catch (snd x))) (thrown c) ->
  Forall (fun x => well_formed (request_catch (snd x))) (thrown (step c ev)).
Proof.
  intros H. destruct ev as [e|t|t r]; simpl.
  - unfold on_error.
    destruct (_ && negb (_retry (config e)));
      [destruct (isRefreshing c)
      |destruct (response e) as [r|]; [destruct (data r)|]]; simpl; try done;
      apply Forall_app; (split; [done|]);
      (apply Forall_cons_2; [|apply Forall_nil_2]); cbn [snd].
    + apply api_error_well_formed. by apply default_truthy_nonempty.
    + apply wrap_500_well_formed.
    + apply wrap_500_well_formed.
  - unfold on_storage. destruct (tasks c !! t) as [k|]; [|done].
    destruct (phase k); try destruct (truthy (storage c !! REFRESH_TOKEN));
      simpl; try done;
      (apply Forall_app; split; [done|]);
      (apply Forall_cons_2; [|apply Forall_nil_2]);
      apply wrap_500_well_formed.
  - unfold on_refresh. destruct (tasks c !! t) as [k|]; [|done].
    destruct (phase k); try done. by destruct r as [[? ?]|].
Qed.

(** X13. What callers of [request] catch. In every reachable state, each
    error the response interceptor has thrown reaches the caller of
    [request] as an object with a non-zero status and a non-empty message;
    and the errors thrown as [Error] objects, the failed authentication
    among them, arrive with status 500 and [success: false]. *)
Theorem request_failures_well_formed st evs :
  Forall (fun x => well_formed (request_catch (snd x)) /\
                   forall msg, snd x = JsError msg ->
                     f_status (request_catch (snd x)) = 500 /\
                     f_success (request_catch (snd x)) = Some false)
         (thrown (run (initial st) evs)).
Proof.
  assert (H : Forall (fun x => well_formed (request_catch (snd x)))
                     (thrown (run (initial st) evs))).
  { assert (Hgen : forall c,
              Forall (fun x => well_formed (request_catch (snd x))) (thrown c) ->
              Forall (fun x => well_formed (request_catch (snd x)))
                     (thrown (run c evs))).
    { induction evs as [|ev evs IH]; intros c Hc; [exact Hc|].
      apply IH. by apply step_thrown_well_formed. }
    apply Hgen. constructor. }
  eapply Forall_impl; [exact H|].
  intros [cfg x] Hx. split; [exact Hx|]. simpl. by intros msg ->.
Qed.

Lemma clearAuthData_other st k :
  k <> ACCESS_TOKEN -> k <> REFRESH_TOKEN -> k <> USER_DATA ->
  clearAuthData st !! k = st !! k.
Proof.
  intros H1 H2 H3. unfold clearAuthData. by rewrite !lookup_delete_ne.
Qed.

(** X14. Clearing and saving the session. After [clearAuthData], whatever
    was stored, [isAuthenticated] is false and the request interceptor
    sends every request as it is, with no [Authorization] added, while
    every other key of the storage is untouched; after [saveAuthData] with
    a non-empty access token, [isAuthenticated] is true and the request
    interceptor authorises every request with that token. *)
Theorem session_storage_round_trip st cfg :
  isAuthenticated (clearAuthData st) = false /\
  request_interceptor true (clearAuthData st) cfg = inr cfg /\
  (forall k, k <> ACCESS_TOKEN -> k <> REFRESH_TOKEN -> k <> USER_DATA ->
     clearAuthData st !! k = st !! k) /\
  (forall a r u, a <> "" ->
     isAuthenticated (saveAuthData a r u st) = true /\
     request_interceptor true (saveAuthData a r u st) cfg
     = inr (authorize a cfg) /\
     isAuthenticated (clearAuthData (saveAuthData a r u st)) = false).
Proof.
  assert (Hc : forall s, truthy (clearAuthData s !! ACCESS_TOKEN) = None).
  { intros s. rewrite ApiClientFacts.clearAuthData_lookup by auto. done. }
  split; [unfold isAuthenticated; by rewrite Hc|].
  split; [unfold request_interceptor; simpl negb; cbv iota; by rewrite Hc|].
  split; [apply clearAuthData_other|].
  intros a r u Ha.
  assert (Hs : truthy (saveAuthData a r u st !! ACCESS_TOKEN) = Some a).
  { unfold saveAuthData. rewrite !lookup_insert_ne by discriminate.
    rewrite lookup_insert_eq. by apply truthy_nonempty. }
  split; [unfold isAuthenticated; by rewrite Hs|].
  split; [unfold request_interceptor; simpl negb; cbv iota; by rewrite Hs|].
  unfold isAuthenticated. by rewrite Hc.
Qed.

End PipelineFacts.

(** ** Notifications *)

Module NotificationFacts.
Import Notifications.

Lemma or_else_nonempty v d : d <> "" -> or_else v d <> "".
Proof. apply PipelineFacts.default_truthy_nonempty. Qed.

(** X15. The push listener shows a notification for every push except one
    whose payload is the JSON value [null]; the notification always has a
    non-empty body, icon and target URL and the two actions [view] and
    [close]; a push without data or with data that is not JSON is titled
    [Car Auction Analyzer], and text that is not JSON becomes the body. *)
Theorem push_notification_is_complete d :
  (push d = None <-> d = JsonNull) /\
  forall n, push d = Some n ->
    n_body n <> "" /\ n_icon n <> "" /\ n_url n <> "" /\
    map action (n_actions n) = ["view"; "close"] /\
    ((forall p, d <> JsonObject p) -> n_title n = Some "Car Auction Analyzer") /\
    (forall text, d = NotJson text -> text <> "" -> n_body n = text).
Proof.
  split.
  - destruct d; simpl; split; intros H; try done.
  - intros n Hn. unfold push in Hn.
    destruct (notificationData d) as [p|] eqn:Hp; [|discriminate].
    injection Hn as <-. simpl.
    split; [by apply or_else_nonempty|].
    split; [by apply or_else_nonempty|].
    split; [by apply or_else_nonempty|].
    split; [reflexivity|]. split.
    + intros Hd. destruct d as [|p'| |text]; simpl in Hp.
      * by injection Hp as <-.
      * by destruct (Hd p').
      * discriminate.
      * by injection Hp as <-.
    + intros text -> Ht. simpl in Hp. injection Hp as <-. simpl.
      unfold or_else. by rewrite (PipelineFacts.truthy_nonempty _ Ht).
Qed.

Lemma first_showing_spec u cs c :
  first_showing u cs = Some c ->
  In c cs /\ client_url c = u /\ can_focus c = true.
Proof.
  induction cs as [|x cs IH]; simpl; [discriminate|].
  destruct (String.eqb_spec (client_url x) u) as [Hu|Hu]; simpl.
  - destruct (can_focus x) eqn:Hf.
    + intros [= <-]. auto.
    + intros H. destruct (IH H) as (? & ? & ?). auto.
  - intros H. destruct (IH H) as (? & ? & ?). auto.
Qed.

Lemma first_showing_none u cs :
  first_showing u cs = None ->
  Forall (fun c => client_url c <> u \/ can_focus c = false) cs.
Proof.
  induction cs as [|x cs IH]; simpl; [constructor|].
  destruct (String.eqb_spec (client_url x) u) as [Hu|Hu]; simpl.
  - destruct (can_focus x) eqn:Hf; [discriminate|].
    intros H. constructor; [by right|by apply IH].
  - intros H. constructor; [by left|by apply IH].
Qed.

(** X16. A click on a notification opens a window only for the action
    [view], only when no open client that can be focused shows the target
    URL, and then for the target URL; when such a client exists it is
    focused instead and no window is opened; any other action does
    nothing. *)
Theorem click_focuses_before_opening act data cs has_open :
  (act <> "view" -> notificationclick act data cs has_open = Nothing) /\
  (forall u, notificationclick act data cs has_open = OpenWindow u ->
     act = "view" /\ u = urlToOpen data /\ has_open = true /\
     Forall (fun c => client_url c <> u \/ can_focus c = false) cs) /\
  (forall c, notificationclick act data cs has_open = Focus c ->
     act = "view" /\ In c cs /\ client_url c = urlToOpen data /\
     can_focus c = true) /\
  (forall c, act = "view" -> In c cs -> client_url c = urlToOpen data ->
     can_focus c = true ->
     exists c', notificationclick act data cs has_open = Focus c').
Proof.
  unfold notificationclick.
  destruct (String.eqb_spec act "view") as [->|Hne].
  - split; [done|].
    destruct (first_showing (urlToOpen data) cs) as [c0|] eqn:Hf.
    + split; [discriminate|]. split; [|eauto].
      intros c [= <-]. destruct (first_showing_spec _ _ _ Hf) as (? & ? & ?).
      auto.
    + pose proof (first_showing_none _ _ Hf) as Hall.
      split; [|split].
      * destruct has_open; [|discriminate]. by intros u [= <-].
      * destruct has_open; discriminate.
      * intros c _ Hin Hu Hc. exfalso.
        rewrite List.Forall_forall in Hall.
        destruct (Hall c Hin) as [H|H]; congruence.
  - split; [done|]. split; [discriminate|]. split; [discriminate|]. done.
Qed.

End NotificationFacts.

(** ** The camera screen *)

Module CameraScreenFacts.
Import CameraScreen.

(** X17. Removing a photo removes every photo with that id and no other,
    keeps the rest in order, changes nothing when no photo has the id, and
    removing twice is removing once. *)
Theorem remove_photo_removes_only_that_id photoId photos :
  (forall p, In p (removePhoto photoId photos)
             <-> In p photos /\ id p <> photoId) /\
  sublist (removePhoto photoId photos) photos /\
  ((forall p, In p photos -> id p <> photoId) ->
   removePhoto photoId photos = photos) /\
  removePhoto photoId (removePhoto photoId photos) = removePhoto photoId photos.
Proof.
  unfold removePhoto. split; [|split; [|split]].
  - intros p. rewrite filter_In.
    destruct (String.eqb_spec (id p) photoId); simpl; intuition congruence.
  - induction photos as [|x xs IH]; simpl; [constructor|].
    destruct (negb _); by constructor.
  - induction photos as [|x xs IH]; intros H; simpl; [reflexivity|].
    destruct (String.eqb_spec (id x) photoId) as [E|E]; simpl.
    + exfalso. apply (H x); [by left|exact E].
    + rewrite IH; [reflexivity|]. intros p Hp. apply H. by right.
  - induction photos as [|x xs IH]; simpl; [reflexivity|].
    destruct (negb (String.eqb (id x) photoId)) eqn:E; simpl; [|exact IH].
    rewrite E. by rewrite IH.
Qed.

(** X18. Changing the category of a photo keeps the number, the order, the
    ids, the URIs and the timestamps of the photos; afterwards every photo
    with that id has the new category and every other photo is the record
    it was; and removing that photo afterwards gives the same list as
    removing it before. *)
Theorem change_category_touches_only_category photoId c photos :
  let photos' := changePhotoCategory photoId c photos in
  length photos' = length photos /\
  map id photos' = map id photos /\
  map uri photos' = map uri photos /\
  map timestamp photos' = map timestamp photos /\
  (forall p, In p photos' -> id p = photoId -> category p = c) /\
  (forall i p, photos !! i = Some p -> id p <> photoId ->
     photos' !! i = Some p) /\
  removePhoto photoId photos' = removePhoto photoId photos.
Proof.
  cbv zeta. unfold changePhotoCategory.
  split; [apply length_map|].
  split; [|split; [|split; [|split; [|split]]]].
  - rewrite List.map_map. apply map_ext. intros p. by destruct (String.eqb _ _).
  - rewrite List.map_map. apply map_ext. intros p. by destruct (String.eqb _ _).
  - rewrite List.map_map. apply map_ext. intros p. by destruct (String.eqb _ _).
  - intros p Hin Hid. apply in_map_iff in Hin as (q & <- & _).
    destruct (String.eqb_spec (id q) photoId) as [E|E]; [reflexivity|].
    by destruct E.
  - intros i p Hi Hne. change (map ?f photos) with (f <$> photos).
    rewrite list_lookup_fmap, Hi. simpl.
    by destruct (String.eqb_spec (id p) photoId).
  - unfold removePhoto. induction photos as [|x xs IH]; simpl; [reflexivity|].
    destruct (String.eqb_spec (id x) photoId) as [E|E]; simpl.
    + rewrite E, String.eqb_refl. simpl. exact IH.
    + destruct (String.eqb_spec (id x) photoId); [done|]. simpl. by rewrite IH.
Qed.

End CameraScreenFacts.
